(** * rag.py: index freshness, query pipeline and interactive session

    A shallow embedding of [src/rag.py] (class [RAGSystem] and the
    [__main__] block) together with the properties of its freshness
    mechanism, its query contract and its session loop.

    Conventions of the embedding:
    - a Python [str] is a list of Unicode code points ([pystr]), a [bytes]
      value is a [list byte];
    - a call that may raise returns a [result]; exception classes and their
      hierarchy are the built-in ones of Python;
    - the file system, standard output and the terminal are explicit state
      ([World]); the answers of the outside world (terminal input, clock,
      LLM backend, indexing library) are oracles. *)

From Stdlib Require Import ZArith NArith QArith Lia.
From Stdlib.Strings Require Import Ascii String Byte.
From stdpp Require Import base option list strings gmap sorting.

Local Open Scope Z_scope.

(* ===================================================================== *)
(** * Python values: strings, exceptions, results                         *)
(* ===================================================================== *)

Module Py.

(** A [str] is a sequence of code points. *)
Definition pystr : Type := list N.

(** An ASCII literal of the source, as a [str]. *)
Definition lit (s : string) : pystr := map N_of_ascii (list_ascii_of_string s).

(** The built-in exception classes that the program and the calls it makes
    can raise, with the parent of each class. *)
Inductive pyclass : Type :=
| BaseException | Exception | KeyboardInterrupt | SystemExit
| OSError | FileNotFoundError | PermissionError | IsADirectoryError
| NotADirectoryError | FileExistsError | ConnectionError
| ValueError | UnicodeDecodeError | EOFError | RuntimeError.

#[global] Instance pyclass_eq_dec : EqDecision pyclass.
Proof. solve_decision. Defined.

Definition parent (c : pyclass) : option pyclass :=
  match c with
  | BaseException => None
  | Exception | KeyboardInterrupt | SystemExit => Some BaseException
  | OSError | ValueError | EOFError | RuntimeError => Some Exception
  | FileNotFoundError | PermissionError | IsADirectoryError
  | NotADirectoryError | FileExistsError | ConnectionError => Some OSError
  | UnicodeDecodeError => Some ValueError
  end.

(** [issubclass c d]: [d] is reached from [c] by following [parent]; the
    hierarchy above has depth three. *)
Fixpoint issubclass_upto (n : nat) (c d : pyclass) : bool :=
  if decide (c = d) then true
  else match n with
       | O => false
       | S n' => match parent c with
                 | Some p => issubclass_upto n' p d
                 | None => false
                 end
       end.

Definition issubclass : pyclass -> pyclass -> bool := issubclass_upto 3.

(** A raised exception: its class and [str(e)]. *)
Record exn : Type := MkExn { exn_class : pyclass; exn_str : pystr }.

#[global] Instance exn_eq_dec : EqDecision exn.
Proof. solve_decision. Defined.

(** [isinstance e c], the test made by [except c]. *)
Definition isinstance (e : exn) (c : pyclass) : bool := issubclass (exn_class e) c.

(** The outcome of a call: a value, or an exception propagating. *)
Inductive result (A : Type) : Type :=
| Ok (a : A)
| Raise (e : exn).
Arguments Ok {A} a.
Arguments Raise {A} e.

#[global] Instance result_eq_dec {A} `{EqDecision A} : EqDecision (result A).
Proof. solve_decision. Defined.

(** Sequencing: the first exception raised propagates. *)
#[global] Instance result_ret : MRet result := fun A a => Ok a.
#[global] Instance result_bind : MBind result := fun A B f r =>
  match r with
  | Ok a => f a
  | Raise e => Raise e
  end.

(** ** [str.strip()] *)

(** Whitespace in the sense of [str.strip()] without argument
    (CPython's [Py_UNICODE_ISSPACE]). *)
Definition is_space (c : N) : bool :=
  ((9 <=? c) && (c <=? 13) || (28 <=? c) && (c <=? 32)
   || (c =? 133) || (c =? 160) || (c =? 5760)
   || (8192 <=? c) && (c <=? 8202)
   || (c =? 8232) || (c =? 8233) || (c =? 8239) || (c =? 8287)
   || (c =? 12288))%N.

Definition all_space (s : pystr) : Prop := Forall (fun c => is_space c = true) s.

Fixpoint lstrip (s : pystr) : pystr :=
  match s with
  | c :: t => if is_space c then lstrip t else s
  | [] => []
  end.

Definition rstrip (s : pystr) : pystr := reverse (lstrip (reverse s)).

Definition strip (s : pystr) : pystr := rstrip (lstrip s).

(** ** [str.lower()] *)

Definition ascii_lower (c : N) : N :=
  if ((65 <=? c) && (c <=? 90))%N then (c + 32)%N else c.

Section Lower.

(** The lower-case mapping of the Unicode database for code points outside
    ASCII; it may look at the characters before and after (final sigma). *)
Variable unicode_lower : pystr -> N -> pystr -> pystr.

Definition lower_char (before : pystr) (c : N) (after : pystr) : pystr :=
  if (c <? 128)%N then [ascii_lower c] else unicode_lower before c after.

Fixpoint lower_from (before : pystr) (s : pystr) : pystr :=
  match s with
  | [] => []
  | c :: t => lower_char before c t ++ lower_from (before ++ [c]) t
  end.

Definition lower (s : pystr) : pystr := lower_from [] s.

End Lower.

End Py.

Import Py.

(* ===================================================================== *)
(** * hashlib.sha256                                                      *)
(* ===================================================================== *)

Module SHA256.

(** 32-bit words are [Z] in [0, 2^32); every sum is reduced. *)
Definition wrap (x : Z) : Z := x mod 4294967296.

Definition rotr (n x : Z) : Z :=
  Z.lor (Z.shiftr x n) (wrap (Z.shiftl x (32 - n))).

Definition xor3 (x y z : Z) : Z := Z.lxor (Z.lxor x y) z.

Definition Ch (x y z : Z) : Z :=
  Z.lxor (Z.land x y) (Z.land (Z.lxor x 4294967295) z).

Definition Maj (x y z : Z) : Z :=
  xor3 (Z.land x y) (Z.land x z) (Z.land y z).

Definition Sigma0 (x : Z) : Z := xor3 (rotr 2 x) (rotr 13 x) (rotr 22 x).
Definition Sigma1 (x : Z) : Z := xor3 (rotr 6 x) (rotr 11 x) (rotr 25 x).
Definition sigma0 (x : Z) : Z := xor3 (rotr 7 x) (rotr 18 x) (Z.shiftr x 3).
Definition sigma1 (x : Z) : Z := xor3 (rotr 17 x) (rotr 19 x) (Z.shiftr x 10).

(** The constants are the first 32 bits of the fractional parts of the cube
    roots (round constants) and of the square roots (initial registers) of
    the first primes. *)
Definition is_prime (p : Z) : bool :=
  (1 <? p) && forallb (fun d => negb (p mod d =? 0))
                      (map Z.of_nat (seq 2 (Z.to_nat p - 2))).

Definition primes_upto (n : nat) : list Z :=
  List.filter is_prime (map Z.of_nat (seq 2 n)).

(** The integer [e]-th root of [n], found bit by bit from the top. *)
Fixpoint root_bits (e : Z) (bits : nat) (n acc : Z) : Z :=
  match bits with
  | O => acc
  | S b =>
      let candidate := acc + 2 ^ Z.of_nat b in
      root_bits e b n (if candidate ^ e <=? n then candidate else acc)
  end.

Definition fractional_bits (e p : Z) : Z :=
  wrap (root_bits e 36 (p * 2 ^ (32 * e)) 0).

Definition K : list Z :=
  Eval vm_compute in map (fractional_bits 3) (take 64 (primes_upto 310)).

Definition registers : Type := (Z * Z * Z * Z * Z * Z * Z * Z)%type.

Definition H0 : registers :=
  Eval vm_compute in
    match map (fractional_bits 2) (primes_upto 18) with
    | [a; b; c; d; e; f; g; h] => (a, b, c, d, e, f, g, h)
    | _ => (0, 0, 0, 0, 0, 0, 0, 0)
    end.

(** Message padding: a 1 bit, zeros up to 56 mod 64, the bit length on
    eight bytes, most significant first. *)
Definition byte_of_Z (x : Z) : byte :=
  match Byte.of_N (Z.to_N (x mod 256)) with Some b => b | None => x00 end.

Definition Z_of_byte (b : byte) : Z := Z.of_N (Byte.to_N b).

Definition be_bytes (n : nat) (x : Z) : list byte :=
  map (fun i => byte_of_Z (Z.shiftr x (8 * Z.of_nat i))) (rev (seq 0 n)).

Definition padding (len : nat) : list byte :=
  [x80] ++ repeat x00 (Z.to_nat ((55 - Z.of_nat len) mod 64))
  ++ be_bytes 8 (8 * Z.of_nat len).

Definition pad (msg : list byte) : list byte := msg ++ padding (length msg).

Fixpoint be_words (bs : list byte) : list Z :=
  match bs with
  | a :: b :: c :: d :: t =>
      (Z_of_byte a * 16777216 + Z_of_byte b * 65536 + Z_of_byte c * 256 + Z_of_byte d)
      :: be_words t
  | _ => []
  end.

(** Message schedule: [expand n win] gives the next [n] words after the
    window [win] of the sixteen previous ones. *)
Fixpoint expand (n : nat) (win : list Z) : list Z :=
  match n, win with
  | S n', w0 :: rest =>
      let w := wrap (sigma1 (nth 13 rest 0) + nth 8 rest 0 + sigma0 (nth 0 rest 0) + w0) in
      w :: expand n' (rest ++ [w])
  | _, _ => []
  end.

Definition schedule (block : list Z) : list Z := block ++ expand 48 block.

Definition round (r : registers) (kw : Z * Z) : registers :=
  let '(a, b, c, d, e, f, g, h) := r in
  let t1 := wrap (h + Sigma1 e + Ch e f g + fst kw + snd kw) in
  let t2 := wrap (Sigma0 a + Maj a b c) in
  (wrap (t1 + t2), a, b, c, wrap (d + t1), e, f, g).

Definition add_registers (r s : registers) : registers :=
  let '(a, b, c, d, e, f, g, h) := r in
  let '(a', b', c', d', e', f', g', h') := s in
  (wrap (a + a'), wrap (b + b'), wrap (c + c'), wrap (d + d'),
   wrap (e + e'), wrap (f + f'), wrap (g + g'), wrap (h + h')).

Definition compress (r : registers) (block : list Z) : registers :=
  add_registers r (fold_left round (combine K (schedule block)) r).

Fixpoint hash_blocks (n : nat) (r : registers) (ws : list Z) : registers :=
  match n with
  | O => r
  | S n' => hash_blocks n' (compress r (firstn 16 ws)) (skipn 16 ws)
  end.

Definition digest_registers (msg : list byte) : registers :=
  let p := pad msg in
  hash_blocks (Nat.div (length p) 64) H0 (be_words p).

Definition output (r : registers) : list byte :=
  let '(a, b, c, d, e, f, g, h) := r in
  flat_map (be_bytes 4) [a; b; c; d; e; f; g; h].

(** The digest of a message given at once. *)
Definition digest (msg : list byte) : list byte := output (digest_registers msg).

(** Lower-case hexadecimal, two digits per byte. *)
Definition hex_digit (n : Z) : N :=
  Z.to_N (if n <? 10 then 48 + n else 87 + n).

Definition hex (bs : list byte) : pystr :=
  flat_map (fun b => [hex_digit (Z_of_byte b / 16); hex_digit (Z_of_byte b mod 16)]) bs.

(** The characters [0-9a-f]. *)
Definition is_lower_hex (c : N) : bool :=
  ((48 <=? c) && (c <=? 57) || (97 <=? c) && (c <=? 102))%N.

End SHA256.

(** The hash object of [hashlib]: it holds the chaining registers, the
    bytes of the block not yet complete, and the number of bytes fed so far.
    [update] compresses every block that the new bytes complete; the digest
    pads what is left and compresses it. *)
Module hashlib.

Record hasher : Type := MkHasher {
  state : SHA256.registers;
  pending : list byte;
  fed : nat
}.

Definition sha256 : hasher := MkHasher SHA256.H0 [] 0.

Definition update (h : hasher) (data : list byte) : hasher :=
  let buffer := pending h ++ data in
  let n := Nat.div (length buffer) 64 in
  MkHasher (SHA256.hash_blocks n (state h) (SHA256.be_words (take (64 * n) buffer)))
           (drop (64 * n) buffer)
           (fed h + length data).

Definition digest (h : hasher) : list byte :=
  let last := pending h ++ SHA256.padding (fed h) in
  SHA256.output
    (SHA256.hash_blocks (Nat.div (length last) 64) (state h) (SHA256.be_words last)).

Definition hexdigest (h : hasher) : pystr := SHA256.hex (digest h).

(** A hasher between two calls: less than a block is pending. *)
Definition canonical (h : hasher) : Prop := (length (pending h) < 64)%nat.

End hashlib.

(* ===================================================================== *)
(** * The outside world                                                   *)
(* ===================================================================== *)

(** ** The corpus directory *)

(** A directory entry, as [os.scandir] reports it. A file carries the outcome
    of [open(path, "rb").read()] on it; a directory carries its entries in
    the order in which the file system lists them. A directory that cannot
    be listed, or that is reached through a symbolic link, is not descended
    into by [os.walk]: it behaves as a directory without entries. *)
#[local] Unset Elimination Schemes.
Inductive entry : Type :=
| File (name : pystr) (content : result (list byte))
| Dir (name : pystr) (children : list entry).
#[local] Set Elimination Schemes.

Definition entry_name (e : entry) : pystr :=
  match e with File n _ | Dir n _ => n end.

Definition is_dir (e : entry) : bool :=
  match e with Dir _ _ => true | File _ _ => false end.

(** [os.path.join(root, name)] for a name without separator. *)
Definition path_join (root name : pystr) : pystr := root ++ lit "/" ++ name.

(** One item of [os.walk]: the directory, the names of its sub-directories,
    and its other entries, each with what opening and reading
    [os.path.join(root, file)] gives. *)
Record walk_item : Type := MkItem {
  item_root : pystr;
  item_dirs : list pystr;
  item_files : list (pystr * result (list byte))
}.

Definition files_of (es : list entry) : list (pystr * result (list byte)) :=
  flat_map (fun e => match e with File n c => [(n, c)] | Dir _ _ => [] end) es.

Definition dirs_of (es : list entry) : list pystr :=
  map entry_name (filter (fun e => is_dir e = true) es).

(** [os.walk] top-down: a directory first, then its sub-directories in
    listing order, each one entirely before the next. *)
Fixpoint walk_dir (parent_path : pystr) (e : entry) : list walk_item :=
  match e with
  | File _ _ => []
  | Dir name children =>
      let top := path_join parent_path name in
      MkItem top (dirs_of children) (files_of children)
      :: flat_map (walk_dir top) children
  end.

(** [os.walk("./data")]; nothing is yielded when the directory is missing. *)
Definition os_walk_data (data : option (list entry)) : list walk_item :=
  match data with
  | Some children => walk_dir (lit ".") (Dir (lit "data") children)
  | None => []
  end.

(** ** Storage directory, terminal and standard output *)

(** What the program prints, one constructor per [print] of the source. *)
Inductive Output : Type :=
| OutRebuilding                 (* print("检测到文档变更，正在重建索引...") *)
| OutUpdated (stamp : pystr)    (* print(f"索引已更新：{datetime.now().strftime(...)}") *)
| OutLoading                    (* print("加载已有索引...") *)
| OutConfigMissing              (* print("错误：请先在.env文件中配置GEMINI_API_KEY") *)
| OutInit                       (* print("初始化RAG系统...") *)
| OutReady                      (* print("\nRAG系统已就绪！输入 'exit' 退出") *)
| OutAnswer (response : pystr)  (* print(f"\nAI：{response}") *)
| OutError (message : pystr)    (* print(f"发生错误：{str(e)}") *)
| OutHint                       (* print("请检查：1.网络连接 2.API密钥 3.文档路径") *)
| OutPrompt.                    (* the prompt of input("\n您：") *)

Section Program.

(** The indexing library: documents, the index handle, and the persisted
    representation of an index are its own. *)
Context {Document Index Stored : Type}.

(** The content of [./storage] when it exists: [hash_file] is the outcome of
    [open(hash_file, "r").read()] ([FileNotFoundError] when the file does
    not exist), [persisted] is what [persist] last wrote there. *)
Record Storage : Type := MkStorage {
  hash_file : result pystr;
  persisted : option Stored
}.

Record World : Type := MkWorld {
  environ : gmap pystr pystr;          (* os.environ *)
  data : option (list entry);          (* ./data; None when missing *)
  storage : option Storage;            (* ./storage; None when missing *)
  observed : list (option Storage);    (* ./storage after each write, oldest first *)
  stdin : list (result pystr);         (* outcomes of the coming input() calls *)
  stdout : list Output;                (* lines printed so far, oldest first *)
  clock : pystr;                       (* datetime.now().strftime(...) *)
  llm_calls : nat;                     (* requests sent to the LLM backend *)
  queries : list (Index * pystr)       (* (index handle, question) of each query *)
}.

(** Effectful code: a state transformer that may raise; what was done
    before the exception stays done. *)
Definition M (A : Type) : Type := World -> World * result A.

#[global] Instance M_ret : MRet M := fun A a w => (w, Ok a).
#[global] Instance M_bind : MBind M := fun A B f m w =>
  match m w with
  | (w', Ok a) => f a w'
  | (w', Raise e) => (w', Raise e)
  end.

Definition lift {A} (r : result A) : M A := fun w => (w, r).
Definition gets {A} (f : World -> A) : M A := fun w => (w, Ok (f w)).
Definition modify (f : World -> World) : M unit := fun w => (f w, Ok tt).

(** [try: body except cls as e: handler]. *)
Definition try_except {A} (body : M A) (cls : pyclass) (handler : exn -> M A) : M A :=
  fun w =>
    match body w with
    | (w', Raise e) => if isinstance e cls then handler e w' else (w', Raise e)
    | r => r
    end.

Definition print (o : Output) : M unit :=
  modify (fun w =>
    MkWorld (environ w) (data w) (storage w) (observed w) (stdin w)
            (stdout w ++ [o]) (clock w) (llm_calls w) (queries w)).

(** A write to [./storage]; the new content is visible to an observer. *)
Definition set_storage (s : option Storage) : M unit :=
  modify (fun w =>
    MkWorld (environ w) (data w) s (observed w ++ [s]) (stdin w)
            (stdout w) (clock w) (llm_calls w) (queries w)).

(* ===================================================================== *)
(** * class RAGSystem                                                     *)
(* ===================================================================== *)

(** ** [_get_documents_hash] *)

(** The inner loop: [hasher.update(f.read())] for every file of an item. *)
Fixpoint update_files (hasher : hashlib.hasher)
    (files : list (pystr * result (list byte))) : result hashlib.hasher :=
  match files with
  | [] => Ok hasher
  | (_, content) :: rest =>
      bytes ← content;
      update_files (hashlib.update hasher bytes) rest
  end.

(** The outer loop over the items of [os.walk]. *)
Fixpoint update_items (hasher : hashlib.hasher) (items : list walk_item)
    : result hashlib.hasher :=
  match items with
  | [] => Ok hasher
  | item :: rest =>
      hasher' ← update_files hasher (item_files item);
      update_items hasher' rest
  end.

Definition documents_hash (d : option (list entry)) : result pystr :=
  hasher ← update_items hashlib.sha256 (os_walk_data d);
  Ok (hashlib.hexdigest hasher).

Definition _get_documents_hash : M pystr :=
  fun w => (w, documents_hash (data w)).

(** ** The indexing library *)

(** [SimpleDirectoryReader(input_dir="./data").load_data()]. *)
Variable load_data : option (list entry) -> result (list Document).
(** [VectorStoreIndex.from_documents(documents)]. *)
Variable from_documents : list Document -> result Index.
(** [index.storage_context.persist(persist_dir=storage_dir)]: the durable
    representation written, or the failure; a failed call is taken to leave
    the directory as it was. *)
Variable persist : Index -> result Stored.
(** [load_index_from_storage(StorageContext.from_defaults(persist_dir=...))]
    on what the directory holds. *)
Variable load_index_from_storage : option Stored -> result Index.

(** ** [_build_or_load_index] *)

Definition no_such_hash_file : exn :=
  MkExn FileNotFoundError
        (lit "[Errno 2] No such file or directory: './storage/doc_hash.sha256'").

(** [os.path.exists(storage_dir)]. *)
Definition storage_exists : M bool :=
  gets (fun w => match storage w with Some _ => true | None => false end).

(** [with open(hash_file, "r") as f: f.read()]. *)
Definition read_hash_file : M pystr :=
  fun w => (w, match storage w with
               | Some st => hash_file st
               | None => Raise no_such_hash_file
               end).

(** [os.makedirs(storage_dir, exist_ok=True)]. *)
Definition makedirs_storage : M unit :=
  fun w => match storage w with
           | Some _ => (w, Ok tt)
           | None => set_storage (Some (MkStorage (Raise no_such_hash_file) None)) w
           end.

(** [index.storage_context.persist(persist_dir=storage_dir)]. *)
Definition persist_index (index : Index) : M unit :=
  fun w => match persist index, storage w with
           | Ok s, Some st => set_storage (Some (MkStorage (hash_file st) (Some s))) w
           | Ok s, None => set_storage (Some (MkStorage (Raise no_such_hash_file) (Some s))) w
           | Raise e, _ => (w, Raise e)
           end.

(** [open(hash_file, "w")] (line 94): the record is created, or cut to
    length zero, when it is opened, before anything is written to it. *)
Definition open_hash_file : M unit :=
  fun w => match storage w with
           | Some st => set_storage (Some (MkStorage (Ok []) (persisted st))) w
           | None => (w, Raise no_such_hash_file)
           end.

(** [f.write(h)] and the end of the [with] block (line 95). *)
Definition write_hash_file (h : pystr) : M unit :=
  fun w => match storage w with
           | Some st => set_storage (Some (MkStorage (Ok h) (persisted st))) w
           | None => (w, Raise no_such_hash_file)
           end.

(** [SimpleDirectoryReader(input_dir="./data").load_data()] on the corpus. *)
Definition read_documents : M (list Document) :=
  fun w => (w, load_data (data w)).

(** [StorageContext.from_defaults] and [load_index_from_storage] on what
    [./storage] holds. *)
Definition load_persisted : M Index :=
  fun w => (w, load_index_from_storage (st ← storage w; persisted st)).

(** Lines 71-82: the value of [rebuild], and the local [current_hash] when
    it has been bound. *)
Definition check_rebuild : M (bool * option pystr) :=
  present ← storage_exists;
  if (present : bool) then
    current_hash ← _get_documents_hash;
    rebuild ← try_except
                (saved_hash ← read_hash_file;
                 mret (negb (bool_decide (current_hash = saved_hash))))
                FileNotFoundError
                (fun _ => mret true);
    mret (rebuild, Some current_hash)
  else
    mret (true, None).

(** Lines 85-96: the [if rebuild:] branch. The record is opened for writing
    (line 94) before the fingerprint is computed (line 95): when the
    fingerprint raises, the [with] block closes a record that is empty. *)
Definition rebuild_index : M Index :=
  print OutRebuilding;;
  makedirs_storage;;
  documents ← read_documents;
  index ← lift (from_documents documents);
  persist_index index;;
  open_hash_file;;
  h ← _get_documents_hash;
  write_hash_file h;;
  stamp ← gets clock;
  print (OutUpdated stamp);;
  mret index.

(** Lines 98-100: the [else:] branch. *)
Definition load_index : M Index :=
  print OutLoading;;
  load_persisted.

Definition _build_or_load_index : M Index :=
  '(rebuild, _) ← check_rebuild;
  if (rebuild : bool) then rebuild_index else load_index.

(** *** The freshness decision, as the specification words it *)

Inductive Freshness : Type := Fresh | Stale.

Definition freshness_of (rebuild : bool) : Freshness :=
  if rebuild then Stale else Fresh.

(** The branch of [_build_or_load_index] that a decision selects. *)
Definition action_of (v : Freshness) : M Index :=
  match v with
  | Stale => rebuild_index
  | Fresh => load_index
  end.


(** What an observer of [./storage] reads: the fingerprint record, and the
    persisted index. *)
Definition sidecar (s : option Storage) : result pystr :=
  match s with
  | Some st => hash_file st
  | None => Raise no_such_hash_file
  end.

Definition index_files (s : option Storage) : option Stored :=
  st ← s; persisted st.

(** ** [_configure_settings] *)

(** The values given to [SentenceWindowNodeParser.from_defaults] and to
    [HuggingFaceEmbedding]; building the two objects is taken to succeed. *)
Record SettingsValues : Type := MkSettings {
  window_size : nat;
  window_metadata_key : pystr;
  original_text_metadata_key : pystr;
  embed_model_name : pystr;
  embed_device : pystr
}.

Definition _configure_settings : SettingsValues :=
  MkSettings 1 (lit "window") (lit "original_sentence") (lit "BAAI/bge-m3") (lit "cpu").

(** ** The query engine of the library *)

Context {Embedding : Type}.

(** The embedding backend on a question, and the similarity of two
    embeddings. *)
Variable embed : pystr -> result Embedding.
Variable similarity : Embedding -> Embedding -> Q.
(** The LLM backend: the outcome of its [n]-th request, given the context
    texts and the question; the value is [str(response)]. *)
Variable complete : nat -> list pystr -> pystr -> result pystr.

(** A chunk of the index: its text (the primary sentence), its metadata
    and its embedding. *)
Record Node : Type := MkNode {
  text : pystr;
  metadata : gmap pystr pystr;
  embedding : Embedding
}.

(** The chunks that an index holds. *)
Variable nodes : Index -> list Node.

Inductive PostProcessor : Type :=
| MetadataReplacementPostProcessor (target_metadata_key : pystr).

Record QueryEngine : Type := MkEngine {
  engine_index : Index;
  similarity_top_k : nat;
  node_postprocessors : list PostProcessor
}.

(** Modelled from the spec: the retriever of the library, which is not part
    of the repository. It "retrieves the top-K chunks by embedding
    similarity against the question's embedding": the chunks are ordered by
    decreasing similarity and the first [k] are kept. *)
Definition closer (q : Embedding) (a b : Node) : Prop :=
  (similarity q (embedding b) <= similarity q (embedding a))%Q.

#[global] Instance closer_dec q a b : Decision (closer q a b).
Proof.
  unfold closer.
  destruct (Qlt_le_dec (similarity q (embedding a)) (similarity q (embedding b))) as [Hlt|Hle].
  - right. apply Qlt_not_le, Hlt.
  - left. exact Hle.
Defined.

Definition top_k (k : nat) (q : Embedding) (ns : list Node) : list Node :=
  take k (merge_sort (closer q) ns).

(** Modelled from the spec: the post-processing step of the library, which
    "replaces each retrieved chunk's primary sentence view with its stored
    window view": the text becomes the metadata value under the key, and is
    kept when the key is missing. *)
Definition replace_text (key : pystr) (n : Node) : Node :=
  MkNode (default (text n) (metadata n !! key)) (metadata n) (embedding n).

Definition postprocess (ns : list Node) (p : PostProcessor) : list Node :=
  match p with
  | MetadataReplacementPostProcessor key => map (replace_text key) ns
  end.

Definition log_query (index : Index) (question : pystr) : M unit :=
  modify (fun w =>
    MkWorld (environ w) (data w) (storage w) (observed w) (stdin w)
            (stdout w) (clock w) (llm_calls w) (queries w ++ [(index, question)])).

Definition next_llm_call : M nat :=
  fun w =>
    (MkWorld (environ w) (data w) (storage w) (observed w) (stdin w)
             (stdout w) (clock w) (S (llm_calls w)) (queries w),
     Ok (llm_calls w)).

(** Modelled from the spec: [query_engine.query(question)] followed by
    [str(response)]. The engine retrieves, post-processes, and "sends the
    assembled context + question to the LLM backend"; no retry, a failure of
    a backend propagates. *)
Definition engine_query (engine : QueryEngine) (question : pystr) : M pystr :=
  log_query (engine_index engine) question;;
  q ← lift (embed question);
  let retrieved := top_k (similarity_top_k engine) q (nodes (engine_index engine)) in
  let context := fold_left postprocess (node_postprocessors engine) retrieved in
  n ← next_llm_call;
  lift (complete n (map text context) question).

(** ** [__init__], [_create_query_engine], [query] *)

Record RAGSystem : Type := MkRAG {
  settings : SettingsValues;
  index : Index;
  query_engine : QueryEngine
}.

Definition _create_query_engine (index : Index) : QueryEngine :=
  let post_processor := MetadataReplacementPostProcessor (lit "window") in
  MkEngine index 3 [post_processor].

Definition query (self : RAGSystem) (question : pystr) : M pystr :=
  response ← engine_query (query_engine self) question;
  mret (strip response).

(** [if os.getenv("PROXY_URL"): os.environ['all_proxy'] = os.getenv("PROXY_URL")]. *)
Definition configure_proxy : M unit :=
  modify (fun w =>
    match environ w !! lit "PROXY_URL" with
    | Some (c :: url) =>
        MkWorld (<[lit "all_proxy" := c :: url]> (environ w)) (data w) (storage w)
                (observed w) (stdin w) (stdout w) (clock w) (llm_calls w) (queries w)
    | _ => w
    end).

Definition __init__ : M RAGSystem :=
  configure_proxy;;
  let s := _configure_settings in
  index ← _build_or_load_index;
  mret (MkRAG s index (_create_query_engine index)).

(* ===================================================================== *)
(** * The interactive session                                             *)
(* ===================================================================== *)

(** Lower-casing of code points outside ASCII (the Unicode database). *)
Variable unicode_lower : pystr -> N -> pystr -> pystr.

Definition end_of_input : exn := MkExn EOFError (lit "EOF when reading a line").

(** [input("\n您：")]: the prompt is written, then the terminal answers; a
    closed terminal keeps answering [EOFError]. *)
Definition read_line : M pystr :=
  fun w =>
    match stdin w with
    | r :: rest =>
        (MkWorld (environ w) (data w) (storage w) (observed w) rest
                 (stdout w) (clock w) (llm_calls w) (queries w), r)
    | [] => (w, Raise end_of_input)
    end.

Definition input : M pystr :=
  print OutPrompt;;
  read_line.

(** How one pass through the [while True:] body ends. *)
Inductive Flow : Type := Break | Continue.

(** Lines 133-143. *)
Definition loop_body (rag : RAGSystem) : M Flow :=
  try_except
    (user_input ← input;
     if bool_decide (lower unicode_lower user_input ∈ [lit "exit"; lit "quit"])
     then mret Break
     else
       response ← query rag user_input;
       print (OutAnswer response);;
       mret Continue)
    Exception
    (fun e =>
       print (OutError (exn_str e));;
       print OutHint;;
       mret Continue).

(** The state of the process after some passes through the loop. *)
Inductive Status : Type :=
| Running                (* still in the loop *)
| Finished               (* the loop was left by [break]; the script ends *)
| Terminated (e : exn).  (* an exception left the loop uncaught *)

(** [while True:], cut after [n] passes. *)
Fixpoint session (n : nat) (rag : RAGSystem) (w : World) : World * Status :=
  match n with
  | O => (w, Running)
  | S n' =>
      match loop_body rag w with
      | (w', Ok Break) => (w', Finished)
      | (w', Ok Continue) => session n' rag w'
      | (w', Raise e) => (w', Terminated e)
      end
  end.

Definition system_exit_1 : exn := MkExn SystemExit (lit "1").

(** The [__main__] block, its loop cut after [n] passes. *)
Definition main (n : nat) (w : World) : World * Status :=
  match environ w !! lit "GEMINI_API_KEY" with
  | Some (_ :: _) =>
      match (print OutInit;; rag ← __init__; print OutReady;; mret rag) w with
      | (w', Ok rag) => session n rag w'
      | (w', Raise e) => (w', Terminated e)
      end
  | _ =>
      match print OutConfigMissing w with
      | (w', _) => (w', Terminated system_exit_1)
      end
  end.

End Program.

(* ===================================================================== *)
(** * Renaming and listing order of a corpus                              *)
(* ===================================================================== *)



(** The files in the order in which [_get_documents_hash] opens them. *)
Definition visited_files (d : option (list entry))
    : list (pystr * result (list byte)) :=
  flat_map item_files (os_walk_data d).

(** The concatenation of the contents of a sequence of files; the first
    file that cannot be read decides the failure. *)
Fixpoint read_all (files : list (pystr * result (list byte))) : result (list byte) :=
  match files with
  | [] => Ok []
  | (_, content) :: rest =>
      bytes ← content;
      more ← read_all rest;
      Ok (bytes ++ more)
  end.

(** The byte stream of a corpus: the contents of its files, concatenated in
    traversal order. *)
Definition corpus_bytes (d : option (list entry)) : result (list byte) :=
  read_all (visited_files d).





(* ===================================================================== *)
(** * A small installation, used to run the definitions                   *)
(* ===================================================================== *)

(** The lines that the terminal delivers, among the outcomes of [input()]. *)
Definition typed_lines (outcomes : list (result pystr)) : list pystr :=
  omap (fun r => match r with Ok line => Some line | Raise _ => None end) outcomes.

Module Demo.

(** A stand-in for the indexing library: one chunk per file, whose window
    is the whole file name; the index is its list of chunks and is
    persisted as such. *)
Definition Document : Type := pystr.
Definition Index : Type := list (@Node Z).
Definition Stored : Type := Index.

Definition load_data (d : option (list entry)) : result (list Document) :=
  match visited_files d with
  | [] => Raise (MkExn ValueError (lit "No files found in ./data."))
  | files => Ok (map fst files)
  end.

Definition chunk_of (doc : Document) : @Node Z :=
  MkNode (take 1 doc) {[ lit "window" := doc ]} (Z.of_nat (length doc)).

Definition from_documents (docs : list Document) : result Index :=
  Ok (map chunk_of docs).

Definition persist (index : Index) : result Stored := Ok index.

Definition load_index_from_storage (s : option Stored) : result Index :=
  match s with
  | Some index => Ok index
  | None => Raise (MkExn FileNotFoundError (lit "No such file: ./storage/docstore.json"))
  end.

Definition embed (question : pystr) : result Z := Ok (Z.of_nat (length question)).

Definition similarity (a b : Z) : Q := inject_Z (- Z.abs (a - b)).

(** A backend that fails on its first request and answers afterwards. *)
Definition complete (n : nat) (context : list pystr) (question : pystr) : result pystr :=
  match n with
  | O => Raise (MkExn ConnectionError (lit "backend unavailable"))
  | S _ => Ok (lit "  " ++ concat context ++ lit " ")
  end.

Definition nodes (index : Index) : list (@Node Z) := index.

Definition unicode_lower (before : pystr) (c : N) (after : pystr) : pystr := [c].

Definition bytes_of (s : string) : result (list byte) := Ok (list_byte_of_string s).

(** Two files with different contents. *)
Definition corpus : list entry :=
  [ File (lit "a.txt") (bytes_of "A"); File (lit "b.txt") (bytes_of "B") ].

(** The same bytes, cut differently, under other names and one level down. *)
Definition corpus_recut : list entry :=
  [ Dir (lit "notes") [ File (lit "all.md") (bytes_of "AB") ] ].

Definition world (d : option (list entry)) (s : option (@Storage Stored))
    (keys : list (result pystr)) : @World Index Stored :=
  MkWorld {[ lit "GEMINI_API_KEY" := lit "k" ]} d s [] keys [] (lit "2024-01-01 00:00:00") 0 [].

(** First start: no storage directory yet. *)
Definition first_start : @World Index Stored := world (Some corpus) None [].

Definition build := _build_or_load_index load_data from_documents persist load_index_from_storage.
Definition rebuild := rebuild_index load_data from_documents persist.
Definition check : M (bool * option pystr) := @check_rebuild Index Stored.
Definition run_session := session (Stored := Stored) embed similarity complete nodes unicode_lower.
Definition run_body := loop_body (Stored := Stored) embed similarity complete nodes unicode_lower.
Definition run_query := query (Stored := Stored) embed similarity complete nodes.

Definition rag : @RAGSystem Index :=
  MkRAG _configure_settings (map chunk_of [lit "a.txt"; lit "b.txt"])
        (_create_query_engine (map chunk_of [lit "a.txt"; lit "b.txt"])).

Definition keyboard_interrupt : exn := MkExn KeyboardInterrupt [].
Definition permission_denied : exn :=
  MkExn PermissionError (lit "[Errno 13] Permission denied: './storage/doc_hash.sha256'").



(** A storage directory whose fingerprint record exists but cannot be read. *)
Definition unreadable_sidecar : @World Index Stored :=
  world (Some corpus) (Some (MkStorage (Raise permission_denied) None)) [].

Definition run_main :=
  main load_data from_documents persist load_index_from_storage
       embed similarity complete nodes unicode_lower.
Definition init := __init__ load_data from_documents persist load_index_from_storage.

(** SHA-256 of the two bytes "AB", in hexadecimal. *)
Definition corpus_fingerprint : pystr :=
  lit "38164fbd17603d73f696b8b4d72664d735bb6a7c88577687fd2ae33fd6964153".

(** The index that the stand-in library builds from [corpus]. *)
Definition first_index : Index := map chunk_of [lit "a.txt"; lit "b.txt"].

(** The world left by the first start, and a second start on it. *)
Definition after_first_start : @World Index Stored := fst (build first_start).
Definition second_start : @World Index Stored :=
  world (Some corpus) (storage after_first_start) [].

(** A storage directory whose fingerprint is not the one of the corpus, and
    one without fingerprint record. *)
Definition stale_start : @World Index Stored :=
  world (Some corpus) (Some (MkStorage (Ok (lit "0000")) None)) [].
Definition missing_sidecar : @World Index Stored :=
  world (Some corpus) (Some (MkStorage (Raise no_such_hash_file) None)) [].


(** Terminal sessions. *)
Definition asks : @World Index Stored :=
  world (Some corpus) None
        [Ok (lit "hello"); Ok (lit "b.txt?"); Ok (lit "ExIt"); Ok (lit "x")].
Definition says_quit : @World Index Stored :=
  world (Some corpus) None [Ok (lit "QUIT"); Ok (lit "x")].
Definition interrupted : @World Index Stored :=
  world (Some corpus) None [Raise keyboard_interrupt].
Definition backend_unavailable : exn :=
  MkExn ConnectionError (lit "backend unavailable").

(** An environment without API key, and a corpus directory without files
    (the stand-in library refuses to build an index from it). *)
Definition no_key : @World Index Stored :=
  MkWorld ∅ (Some corpus) None [] [Ok (lit "hello")] [] (lit "2024-01-01 00:00:00") 0 [].
Definition empty_corpus : @World Index Stored := world (Some []) None [Ok (lit "hello")].
Definition no_files_found : exn := MkExn ValueError (lit "No files found in ./data.").

(** A corpus made of directories only, and one with a file that cannot be
    read, with and without storage directory. *)
Definition only_directories : list entry :=
  [ Dir (lit "drafts") [ Dir (lit "old") [] ]; Dir (lit "empty") [] ].
Definition file_locked : exn :=
  MkExn PermissionError (lit "[Errno 13] Permission denied: './data/b.txt'").
Definition locked_corpus : list entry :=
  [ File (lit "a.txt") (bytes_of "A"); File (lit "b.txt") (Raise file_locked);
    File (lit "c.txt") (Raise permission_denied) ].
Definition locked_first_start : @World Index Stored := world (Some locked_corpus) None [].
Definition locked_later_start : @World Index Stored :=
  world (Some locked_corpus) (Some (MkStorage (Ok corpus_fingerprint) (Some first_index))) [].

(** The world left by a first start whose rebuild fails, and the next start. *)
Definition after_failed_start : @World Index Stored := fst (build empty_corpus).
Definition start_after_failure : @World Index Stored :=
  world (Some []) (storage after_failed_start) [].

(** An environment that names a proxy. *)
Definition proxied : @World Index Stored :=
  MkWorld {[ lit "GEMINI_API_KEY" := lit "k"; lit "PROXY_URL" := lit "http://127.0.0.1:7890" ]}
          (Some corpus) None [] [] [] (lit "2024-01-01 00:00:00") 0 [].

(** A terminal on which the empty line and a padded sentinel are typed, and a
    backend whose completion is white space only. *)
Definition odd_lines : @World Index Stored :=
  MkWorld {[ lit "GEMINI_API_KEY" := lit "k" ]} (Some corpus) None []
          [Ok []; Ok (lit "exit "); Ok (lit "exit")] [] (lit "2024-01-01 00:00:00") 1 [].
Definition blank_backend (n : nat) (context : list pystr) (question : pystr)
    : result pystr := Ok (lit "   ").

End Demo.

(* ===================================================================== *)
(** * SHA-256 on the standard test vectors                                *)
(* ===================================================================== *)

(** Standard test vectors (FIPS 180-4): the empty message, ["abc"], and a
    message of two blocks. *)
Example sha256_empty :
  hashlib.hexdigest hashlib.sha256
  = lit "e3b0c44298fc1c149afbf4c8996fb92427ae41e4649b934ca495991b7852b855".
Proof. vm_compute. reflexivity. Qed.

Example sha256_abc :
  hashlib.hexdigest (hashlib.update hashlib.sha256 (list_byte_of_string "abc"))
  = lit "ba7816bf8f01cfea414140de5dae2223b00361a396177a9cb410ff61f20015ad".
Proof. vm_compute. reflexivity. Qed.

Example sha256_two_blocks :
  hashlib.hexdigest
    (hashlib.update hashlib.sha256
       (list_byte_of_string "abcdbcdecdefdefgefghfghighijhijkijkljklmklmnlmnomnopnopq"))
  = lit "248d6a61d20638b8e5c026930c3e6039a33ce45964ff2167f6ecedd419db06c1".
Proof. vm_compute. reflexivity. Qed.

Example sha256_one_shot :
  SHA256.hex (SHA256.digest (list_byte_of_string "abc"))
  = lit "ba7816bf8f01cfea414140de5dae2223b00361a396177a9cb410ff61f20015ad".
Proof. vm_compute. reflexivity. Qed.

(* ===================================================================== *)
(** * Feeding a hasher piecewise                                          *)
(* ===================================================================== *)

Lemma be_words_app (a b : list byte) (n : nat) :
  length a = (4 * n)%nat ->
  SHA256.be_words (a ++ b) = SHA256.be_words a ++ SHA256.be_words b.
Proof.
  revert a. induction n as [|n IH]; intros a Ha.
  - destruct a; [reflexivity | simpl in Ha; lia].
  - destruct a as [|a0 [|a1 [|a2 [|a3 a]]]]; simpl in Ha; try lia.
    simpl. f_equal. apply IH. lia.
Qed.

Lemma length_be_words (a : list byte) (n : nat) :
  length a = (4 * n)%nat -> length (SHA256.be_words a) = n.
Proof.
  revert a. induction n as [|n IH]; intros a Ha.
  - destruct a; [reflexivity | simpl in Ha; lia].
  - destruct a as [|a0 [|a1 [|a2 [|a3 a]]]]; simpl in Ha; try lia.
    simpl. f_equal. apply IH. lia.
Qed.

(** Compressing [n + m] blocks is compressing [n], then [m] from there. *)
Lemma hash_blocks_app (n m : nat) r (ws1 ws2 : list Z) :
  length ws1 = (16 * n)%nat ->
  SHA256.hash_blocks (n + m) r (ws1 ++ ws2)
  = SHA256.hash_blocks m (SHA256.hash_blocks n r ws1) ws2.
Proof.
  revert r ws1. induction n as [|n IH]; intros r ws1 Hlen.
  - destruct ws1; [reflexivity | simpl in Hlen; lia].
  - cbn [Nat.add SHA256.hash_blocks].
    rewrite take_app_le, drop_app_le by lia.
    apply IH. rewrite length_drop. lia.
Qed.

Lemma blocks_of_app (front back : list byte) (n m : nat) :
  length front = (64 * n)%nat ->
  forall r,
    SHA256.hash_blocks (n + m) r (SHA256.be_words (front ++ back))
    = SHA256.hash_blocks m (SHA256.hash_blocks n r (SHA256.be_words front))
                         (SHA256.be_words back).
Proof.
  intros Hlen r. rewrite (be_words_app front back (16 * n)) by lia.
  apply hash_blocks_app. apply length_be_words. lia.
Qed.

(** A buffer cut at its last block boundary. *)
Lemma buffer_cut (buffer : list byte) :
  buffer = take (64 * (length buffer / 64)) buffer
           ++ drop (64 * (length buffer / 64)) buffer /\
  length (take (64 * (length buffer / 64)) buffer) = (64 * (length buffer / 64))%nat /\
  (length (drop (64 * (length buffer / 64)) buffer) < 64)%nat.
Proof.
  split; [by rewrite take_drop|].
  pose proof (Nat.div_mod_eq (length buffer) 64) as Hdm.
  pose proof (Nat.mod_upper_bound (length buffer) 64 ltac:(lia)) as Hlt.
  rewrite length_take, length_drop. lia.
Qed.

(** Two calls of [update] leave the hasher in the state of one call with
    the two arguments concatenated, wherever the cut falls in a block. *)
Lemma hashlib_update_update h a b :
  hashlib.update (hashlib.update h a) b = hashlib.update h (a ++ b).
Proof.
  unfold hashlib.update. cbn [hashlib.state hashlib.pending hashlib.fed].
  set (buffer := hashlib.pending h ++ a).
  destruct (buffer_cut buffer) as (Hcut & Hfront & Hrest).
  set (n1 := (length buffer / 64)%nat) in *.
  set (front := take (64 * n1) buffer) in *.
  set (rest := drop (64 * n1) buffer) in *.
  set (n2 := (length (rest ++ b) / 64)%nat).
  assert (hashlib.pending h ++ a ++ b = front ++ rest ++ b) as ->.
  { rewrite !app_assoc. f_equal. exact Hcut. }
  assert ((length (front ++ rest ++ b) / 64)%nat = (n1 + n2)%nat) as ->.
  { rewrite length_app, Hfront. unfold n2.
    rewrite (Nat.mul_comm 64 n1), Nat.div_add_l by lia. reflexivity. }
  f_equal.
  - rewrite Nat.mul_add_distr_l.
    rewrite take_app_add' by (symmetry; exact Hfront).
    symmetry. apply blocks_of_app. exact Hfront.
  - rewrite Nat.mul_add_distr_l.
    by rewrite drop_app_add' by (symmetry; exact Hfront).
  - rewrite length_app. lia.
Qed.

Lemma canonical_update h data : hashlib.canonical (hashlib.update h data).
Proof. unfold hashlib.canonical, hashlib.update. simpl. apply buffer_cut. Qed.

Lemma hashlib_update_nil h :
  hashlib.canonical h -> hashlib.update h [] = h.
Proof.
  unfold hashlib.canonical, hashlib.update. intros Hc. rewrite app_nil_r.
  rewrite (Nat.div_small (length (hashlib.pending h)) 64) by exact Hc.
  destruct h as [r p f]. simpl. f_equal. lia.
Qed.

(** The digest of a hasher fed a message is the digest of the message. *)
Lemma hexdigest_update (msg : list byte) :
  hashlib.hexdigest (hashlib.update hashlib.sha256 msg)
  = SHA256.hex (SHA256.digest msg).
Proof.
  unfold hashlib.hexdigest, hashlib.digest, SHA256.digest, SHA256.digest_registers,
         SHA256.pad, hashlib.update.
  cbn [hashlib.state hashlib.pending hashlib.fed hashlib.sha256 app Nat.add].
  do 2 f_equal.
  destruct (buffer_cut msg) as (Hcut & Hfront & Hrest).
  set (n := (length msg / 64)%nat) in *.
  set (front := take (64 * n) msg) in *.
  set (rest := drop (64 * n) msg) in *.
  set (last := rest ++ SHA256.padding (length msg)).
  assert (msg ++ SHA256.padding (length msg) = front ++ last) as ->.
  { unfold last. rewrite app_assoc. f_equal. exact Hcut. }
  assert ((length (front ++ last) / 64)%nat = (n + length last / 64)%nat) as ->.
  { rewrite length_app, Hfront.
    rewrite (Nat.mul_comm 64 n), Nat.div_add_l by lia. reflexivity. }
  symmetry. apply blocks_of_app. exact Hfront.
Qed.

(** Feeding a hasher two pieces gives the digest of the pieces put
    together, wherever the cut falls with respect to the 64-byte blocks. *)
Theorem piecewise_hashing (a b : list byte) :
  hashlib.hexdigest (hashlib.update (hashlib.update hashlib.sha256 a) b)
  = SHA256.hex (SHA256.digest (a ++ b)).
Proof. by rewrite hashlib_update_update, hexdigest_update. Qed.

(* ===================================================================== *)
(** * Properties of the fingerprint                                       *)
(* ===================================================================== *)


Lemma read_all_app fs gs :
  read_all (fs ++ gs) = (a ← read_all fs; b ← read_all gs; Ok (a ++ b)).
Proof.
  induction fs as [|[n [bytes|e]] fs IH]; simpl.
  - destruct (read_all gs); reflexivity.
  - rewrite IH. destruct (read_all fs) as [a|]; simpl; [|reflexivity].
    destruct (read_all gs) as [b|]; simpl; [|reflexivity].
    by rewrite app_assoc.
  - reflexivity.
Qed.

(** The inner loop feeds the hasher the concatenation of the files read. *)
Lemma update_files_read_all files : forall h,
  hashlib.canonical h ->
  update_files h files = (b ← read_all files; Ok (hashlib.update h b)).
Proof.
  induction files as [|[n [bytes|e]] files IH]; intros h Hh; simpl.
  - by rewrite hashlib_update_nil.
  - rewrite IH by apply canonical_update.
    destruct (read_all files) as [more|]; simpl; [|reflexivity].
    by rewrite hashlib_update_update.
  - reflexivity.
Qed.

Lemma update_items_read_all items : forall h,
  hashlib.canonical h ->
  update_items h items
  = (b ← read_all (flat_map item_files items); Ok (hashlib.update h b)).
Proof.
  induction items as [|item items IH]; intros h Hh; simpl.
  - by rewrite hashlib_update_nil.
  - rewrite update_files_read_all, read_all_app by exact Hh.
    destruct (read_all (item_files item)) as [a|]; simpl; [|reflexivity].
    rewrite IH by apply canonical_update.
    destruct (read_all (flat_map item_files items)) as [b|]; simpl; [|reflexivity].
    by rewrite hashlib_update_update.
Qed.

(** The digest is SHA-256 of the byte stream of the corpus. *)
Lemma documents_hash_corpus_bytes d :
  documents_hash d = (b ← corpus_bytes d; Ok (SHA256.hex (SHA256.digest b))).
Proof.
  unfold documents_hash, corpus_bytes, visited_files.
  rewrite update_items_read_all by (unfold hashlib.canonical; simpl; lia).
  destruct (read_all (flat_map item_files (os_walk_data d))) as [b|]; simpl;
    [|reflexivity].
  by rewrite hexdigest_update.
Qed.







(** ** The form of a digest, and the failures of the walk *)

Lemma length_be_bytes (n : nat) (x : Z) : length (SHA256.be_bytes n x) = n.
Proof. unfold SHA256.be_bytes. by rewrite length_map, length_rev, length_seq. Qed.

Lemma length_output (r : SHA256.registers) : length (SHA256.output r) = 32%nat.
Proof.
  destruct r as [[[[[[[a b] c] d] e] f] g] h]. unfold SHA256.output.
  cbn [flat_map]. by rewrite !length_app, !length_be_bytes.
Qed.

Lemma hex_digits_of_byte (b : byte) :
  SHA256.is_lower_hex (SHA256.hex_digit (SHA256.Z_of_byte b / 16)) = true /\
  SHA256.is_lower_hex (SHA256.hex_digit (SHA256.Z_of_byte b mod 16)) = true.
Proof. destruct b; vm_compute; split; reflexivity. Qed.

Lemma hex_format (bs : list byte) :
  length (SHA256.hex bs) = (2 * length bs)%nat /\
  Forall (fun c => SHA256.is_lower_hex c = true) (SHA256.hex bs).
Proof.
  induction bs as [|b bs [IHlen IHhex]]; [by split|].
  destruct (hex_digits_of_byte b) as [Hhigh Hlow].
  change (SHA256.hex (b :: bs))
    with (SHA256.hex_digit (SHA256.Z_of_byte b / 16)
          :: SHA256.hex_digit (SHA256.Z_of_byte b mod 16) :: SHA256.hex bs).
  split.
  - cbn [length]. rewrite IHlen. lia.
  - by repeat constructor.
Qed.

(** A hexdigest is made of 64 characters out of [0-9a-f], whatever was
    fed to the hasher. *)
Lemma hexdigest_format (h : hashlib.hasher) :
  length (hashlib.hexdigest h) = 64%nat /\
  Forall (fun c => SHA256.is_lower_hex c = true) (hashlib.hexdigest h).
Proof.
  unfold hashlib.hexdigest, hashlib.digest.
  destruct (hex_format (SHA256.output
              (SHA256.hash_blocks
                 (length (hashlib.pending h ++ SHA256.padding (hashlib.fed h)) / 64)
                 (hashlib.state h)
                 (SHA256.be_words (hashlib.pending h ++ SHA256.padding (hashlib.fed h))))))
    as [Hlen Hhex].
  split; [|exact Hhex]. by rewrite Hlen, length_output.
Qed.

(** [read_all] fails exactly on the first file that cannot be read. *)
Lemma read_all_raises fs e :
  read_all fs = Raise e <->
  exists pre name post,
    fs = pre ++ (name, Raise e) :: post /\
    Forall (fun f => exists bytes, snd f = Ok bytes) pre.
Proof.
  split.
  - induction fs as [|[n [bytes|e0]] fs IH]; simpl; [discriminate | |].
    + destruct (read_all fs) as [more|e1] eqn:Hfs; simpl; [discriminate|].
      intros [= ->]. destruct (IH eq_refl) as (pre & name & post & -> & Hpre).
      exists ((n, Ok bytes) :: pre), name, post. split; [reflexivity|].
      constructor; [by exists bytes | exact Hpre].
    + intros [= ->]. exists [], n, fs. by split.
  - intros (pre & name & post & -> & Hpre).
    induction Hpre as [|[n c] pre [bytes Hc] _ IH]; simpl; [reflexivity|].
    simpl in Hc. subst c. simpl. by rewrite IH.
Qed.

Section Properties.

Context {Document Index Stored Embedding : Type}.
Variable load_data : option (list entry) -> result (list Document).
Variable from_documents : list Document -> result Index.
Variable persist : Index -> result Stored.
Variable load_index_from_storage : option Stored -> result Index.
Variable embed : pystr -> result Embedding.
Variable similarity : Embedding -> Embedding -> Q.
Variable complete : nat -> list pystr -> pystr -> result pystr.
Variable nodes : Index -> list (@Node Embedding).
Variable unicode_lower : pystr -> N -> pystr -> pystr.

Local Abbreviation World := (@World Index Stored).
Local Abbreviation check := (@check_rebuild Index Stored).
Local Abbreviation build :=
  (_build_or_load_index load_data from_documents persist load_index_from_storage).
Local Abbreviation rebuild := (rebuild_index load_data from_documents persist).
Local Abbreviation load := (load_index load_index_from_storage).
Local Abbreviation action :=
  (action_of load_data from_documents persist load_index_from_storage).
Local Abbreviation init :=
  (__init__ load_data from_documents persist load_index_from_storage).
Local Abbreviation ask := (query (Stored := Stored) embed similarity complete nodes).
Local Abbreviation body :=
  (loop_body (Stored := Stored) embed similarity complete nodes unicode_lower).
Local Abbreviation loop :=
  (session (Stored := Stored) embed similarity complete nodes unicode_lower).
Local Abbreviation lowered := (lower unicode_lower).
Local Abbreviation sentinels := [lit "exit"; lit "quit"].

(** Unfolding of the monadic plumbing. *)
Ltac run :=
  unfold mbind, M_bind, mret, M_ret, result_bind, result_ret,
         lift, gets, modify, try_except in *; simpl in *.

(** C9: the fingerprint is a function of the concatenated bytes of the
    files in traversal order only. Two corpora with the same byte stream get
    the same digest, which is the SHA-256 of that stream: names, paths,
    number of files and file boundaries play no part. *)
Theorem fingerprint_of_concatenation (w1 w2 : World) (b : list byte) :
  corpus_bytes (data w1) = Ok b ->
  corpus_bytes (data w2) = Ok b ->
  snd (_get_documents_hash w1) = Ok (SHA256.hex (SHA256.digest b)) /\
  snd (_get_documents_hash w2) = snd (_get_documents_hash w1).
Proof.
  intros H1 H2. unfold _get_documents_hash. simpl.
  rewrite !documents_hash_corpus_bytes, H1, H2. split; reflexivity.
Qed.

(** ** The freshness decision *)

Lemma check_no_storage (w : World) :
  storage w = None -> check w = (w, Ok (true, None)).
Proof. intros H. unfold check_rebuild, storage_exists. run. by rewrite H. Qed.

(** With a storage directory, the decision is made of the fingerprint and of
    the outcome of reading the sidecar. *)
Lemma check_with_storage (w : World) st :
  storage w = Some st ->
  check w =
    (w, match documents_hash (data w) with
        | Raise e => Raise e
        | Ok current =>
            match hash_file st with
            | Ok stored => Ok (negb (bool_decide (current = stored)), Some current)
            | Raise e =>
                if isinstance e FileNotFoundError then Ok (true, Some current)
                else Raise e
            end
        end).
Proof.
  intros H. unfold check_rebuild, storage_exists, _get_documents_hash, read_hash_file.
  run. rewrite H.
  destruct (documents_hash (data w)) as [current|e]; [|reflexivity].
  rewrite H. destruct (hash_file st) as [stored|e]; [reflexivity|].
  by destruct (isinstance e FileNotFoundError).
Qed.

(** The branch taken is the one of the decision. *)
Lemma build_after_check (w : World) b cur :
  check w = (w, Ok (b, cur)) -> build w = action (freshness_of b) w.
Proof.
  intros H. unfold _build_or_load_index. run. rewrite H. by destruct b.
Qed.

Lemma build_check_raises (w : World) e :
  check w = (w, Raise e) -> build w = (w, Raise e).
Proof. intros H. unfold _build_or_load_index. run. by rewrite H. Qed.

(** ** The rebuild branch *)

Ltac unfold_rebuild :=
  unfold rebuild_index, print, makedirs_storage, read_documents, persist_index,
         open_hash_file, _get_documents_hash, write_hash_file, set_storage;
  run.

(** A rebuild that returns has read the documents, built and persisted the
    index, then emptied the fingerprint record and written to it the
    fingerprint recomputed over the corpus; the directory was created first
    when it was missing. *)
Lemma rebuild_returns (w w1 : World) index :
  rebuild w = (w1, Ok index) ->
  exists docs s h,
    load_data (data w) = Ok docs /\
    from_documents docs = Ok index /\
    persist index = Ok s /\
    documents_hash (data w) = Ok h /\
    data w1 = data w /\
    storage w1 = Some (MkStorage (Ok h) (Some s)) /\
    stdout w1 = stdout w ++ [OutRebuilding; OutUpdated (clock w)] /\
    observed w1 =
      observed w
      ++ (match storage w with
          | None => [Some (MkStorage (Raise no_such_hash_file) None)]
          | Some _ => []
          end)
      ++ [Some (MkStorage (sidecar (storage w)) (Some s));
          Some (MkStorage (Ok []) (Some s));
          Some (MkStorage (Ok h) (Some s))].
Proof.
  unfold_rebuild.
  destruct (storage w) as [st|] eqn:Hs; simpl;
    destruct (load_data (data w)) as [docs|] eqn:Hd; simpl; try discriminate;
    destruct (from_documents docs) as [ix|] eqn:Hi; simpl; try discriminate;
    destruct (persist ix) as [s|] eqn:Hp; simpl; try discriminate;
    destruct (documents_hash (data w)) as [h|] eqn:Hh; simpl; try discriminate;
    intros [= <- <-]; exists docs, s, h; simpl;
    rewrite <- ?app_assoc; simpl; repeat split; try done.
Qed.

(** Whatever its outcome, a rebuild writes to [./storage] in this order:
    the directory, the index, the emptied fingerprint record, the
    fingerprint. A state of the directory whose fingerprint record is no
    longer the one found at startup already holds the index built by this
    run, and its record is empty or holds the fingerprint of the corpus. *)
Lemma rebuild_observations (w w1 : World) r :
  rebuild w = (w1, r) ->
  exists obs,
    observed w1 = observed w ++ obs /\
    Forall (fun o =>
      sidecar o <> sidecar (storage w) ->
      exists docs index s,
        load_data (data w) = Ok docs /\
        from_documents docs = Ok index /\
        persist index = Ok s /\
        (o = Some (MkStorage (Ok []) (Some s)) \/
         exists h, documents_hash (data w) = Ok h /\
                   o = Some (MkStorage (Ok h) (Some s)))) obs.
Proof.
  unfold_rebuild.
  destruct (storage w) as [st|] eqn:Hs; simpl;
    destruct (load_data (data w)) as [docs|] eqn:Hd; simpl;
    try destruct (from_documents docs) as [ix|] eqn:Hi; simpl;
    try destruct (persist ix) as [s|] eqn:Hp; simpl;
    try destruct (documents_hash (data w)) as [h|] eqn:Hh; simpl;
    intros [= <- <-]; simpl;
    rewrite <- ?app_assoc; simpl;
    (eexists; split; [try reflexivity; symmetry; apply app_nil_r|]);
    repeat constructor; simpl; try congruence;
    intros _; exists docs, ix, s; rewrite ?Hi, ?Hp;
    (split; [done|]); (split; [done|]); (split; [done|]);
    first [ by left | right; exists h; by split ].
Qed.

Lemma check_current_hash (w : World) b h :
  check w = (w, Ok (b, Some h)) -> documents_hash (data w) = Ok h.
Proof.
  intros Hc. destruct (storage w) as [st|] eqn:Hs.
  - rewrite (check_with_storage w st Hs) in Hc.
    destruct (documents_hash (data w)) as [current|]; [|discriminate].
    destruct (hash_file st) as [stored|e].
    + injection Hc; intros; congruence.
    + destruct (isinstance e FileNotFoundError); [|discriminate].
      injection Hc; intros; congruence.
  - rewrite (check_no_storage w Hs) in Hc. discriminate.
Qed.

(** C5, as the code has it: on the rebuild path the index is persisted
    before the fingerprint record is opened for writing, so that no state of
    the storage directory shows a record other than the one found at startup
    without the new index: such a state holds the index built by this run,
    and its record is either empty (line 94 has opened it) or holds the
    fingerprint of the corpus. The value written is the fingerprint
    recomputed over the corpus after the index has been persisted: it equals
    the fingerprint of the staleness decision when the decision computed
    one, and the decision computes none when the storage directory is
    missing. *)
Theorem index_persisted_before_fingerprint (w w1 : World) cur r :
  check w = (w, Ok (true, cur)) ->
  build w = (w1, r) ->
  (exists obs,
     observed w1 = observed w ++ obs /\
     Forall (fun o =>
       sidecar o <> sidecar (storage w) ->
       exists docs index s,
         load_data (data w) = Ok docs /\
         from_documents docs = Ok index /\
         persist index = Ok s /\
         (o = Some (MkStorage (Ok []) (Some s)) \/
          exists h, documents_hash (data w) = Ok h /\
                    o = Some (MkStorage (Ok h) (Some s)))) obs) /\
  (forall index, r = Ok index ->
     exists s h,
       persist index = Ok s /\
       documents_hash (data w) = Ok h /\
       storage w1 = Some (MkStorage (Ok h) (Some s)) /\
       (forall h0, cur = Some h0 -> h0 = h)) /\
  (storage w = None -> cur = None).
Proof.
  intros Hcheck Hbuild.
  rewrite (build_after_check w true cur Hcheck) in Hbuild. simpl in Hbuild.
  split; [by eapply rebuild_observations|]. split.
  - intros index ->.
    destruct (rebuild_returns w w1 index Hbuild)
      as (docs & s & h & _ & _ & Hp & Hh & _ & Hs & _).
    exists s, h. repeat split; try done.
    intros h0 ->. apply check_current_hash in Hcheck. congruence.
  - intros Hs. rewrite (check_no_storage w Hs) in Hcheck. congruence.
Qed.



(** The proxy setting touches the environment only. *)
Lemma configure_proxy_run (w : World) :
  exists w', @configure_proxy Index Stored w = (w', Ok tt) /\
             storage w' = storage w /\ data w' = data w.
Proof.
  unfold configure_proxy. run.
  destruct (environ w !! lit "PROXY_URL") as [[|c url]|]; eexists; by repeat split.
Qed.

(** C3, as the code has it: a missing sidecar is not an error, the start
    rebuilds; a sidecar that exists and cannot be read raises an exception
    which is not a [FileNotFoundError], nothing catches it, and the start
    fails with it. *)
Theorem sidecar_read_failure (w : World) st e h :
  storage w = Some st ->
  hash_file st = Raise e ->
  documents_hash (data w) = Ok h ->
  (isinstance e FileNotFoundError = true ->
     check w = (w, Ok (true, Some h)) /\ build w = rebuild w) /\
  (isinstance e FileNotFoundError = false ->
     check w = (w, Raise e) /\ build w = (w, Raise e) /\ snd (init w) = Raise e).
Proof.
  intros Hs Hf Hh. split; intros He.
  - assert (check w = (w, Ok (true, Some h))) as Hcheck
      by (by rewrite (check_with_storage w st Hs), Hh, Hf, He).
    split; [exact Hcheck|]. exact (build_after_check w true (Some h) Hcheck).
  - assert (check w = (w, Raise e)) as Hcheck
      by (by rewrite (check_with_storage w st Hs), Hh, Hf, He).
    split; [exact Hcheck|]. split; [by apply build_check_raises|].
    destruct (configure_proxy_run w) as (w' & Hproxy & Hs' & Hd').
    unfold __init__, mbind, M_bind. rewrite Hproxy.
    rewrite (build_check_raises w' e); [reflexivity|].
    rewrite Hs in Hs'. by rewrite (check_with_storage w' st Hs'), Hd', Hh, Hf, He.
Qed.

(** ** Strings *)

Lemma lstrip_split (s : pystr) :
  exists ws, s = ws ++ lstrip s /\ all_space ws.
Proof.
  induction s as [|c s (ws & Hs & Hws)]; simpl.
  - exists []. split; [reflexivity | constructor].
  - destruct (is_space c) eqn:Hc.
    + exists (c :: ws). split; [simpl; by f_equal | by constructor].
    + exists []. split; [reflexivity | constructor].
Qed.

Lemma lstrip_head (s : pystr) c :
  head (lstrip s) = Some c -> is_space c = false.
Proof.
  induction s as [|c' s IH]; simpl; [discriminate|].
  destruct (is_space c') eqn:Hc; [exact IH|].
  simpl. intros [= <-]. exact Hc.
Qed.

Lemma rstrip_split (s : pystr) :
  exists ws, s = rstrip s ++ ws /\ all_space ws.
Proof.
  unfold rstrip. destruct (lstrip_split (reverse s)) as (ws & Hs & Hws).
  exists (reverse ws). split.
  - rewrite <- reverse_app, <- Hs. by rewrite reverse_involutive.
  - unfold all_space. by rewrite Forall_reverse.
Qed.

Lemma rstrip_last (s : pystr) c :
  last (rstrip s) = Some c -> is_space c = false.
Proof. unfold rstrip. rewrite last_reverse. apply lstrip_head. Qed.

(** [strip] removes white space at both ends, nothing else, and leaves none
    at either end. *)
Lemma strip_spec (s : pystr) :
  (exists l r, s = l ++ strip s ++ r /\ all_space l /\ all_space r) /\
  (forall c, head (strip s) = Some c -> is_space c = false) /\
  (forall c, last (strip s) = Some c -> is_space c = false).
Proof.
  unfold strip.
  destruct (lstrip_split s) as (l & Hl & Hls).
  destruct (rstrip_split (lstrip s)) as (r & Hr & Hrs).
  split; [|split].
  - exists l, r. split; [|by split]. by rewrite <- Hr.
  - intros c Hc. apply (lstrip_head s). rewrite Hr.
    destruct (rstrip (lstrip s)); [discriminate | exact Hc].
  - apply rstrip_last.
Qed.

(** Lower-casing of a string made of ASCII characters only. *)
Lemma lower_from_ascii (s : pystr) : forall before,
  Forall (fun c => (c < 128)%N) s ->
  lower_from unicode_lower before s = map ascii_lower s.
Proof.
  induction s as [|c s IH]; intros before Hs; simpl; [reflexivity|].
  inversion Hs as [|? ? Hc Hrest]; subst.
  unfold lower_char. apply N.ltb_lt in Hc as ->. simpl.
  by rewrite IH.
Qed.

Lemma ascii_lower_ascii (c : N) : (ascii_lower c < 128)%N -> (c < 128)%N.
Proof.
  unfold ascii_lower. destruct (_ && _)%bool eqn:Hc; [|done].
  apply andb_prop in Hc as [_ Hc]. apply N.leb_le in Hc. lia.
Qed.

(** Any casing of an ASCII word is lower-cased to that word. *)
Lemma lower_of_cased_word (line word : pystr) :
  Forall (fun c => (c < 128)%N) word ->
  map ascii_lower line = word ->
  lower unicode_lower line = word.
Proof.
  intros Hword <-. unfold lower. apply lower_from_ascii.
  apply Forall_map in Hword. eapply Forall_impl; [exact Hword|].
  intros c. simpl. apply ascii_lower_ascii.
Qed.

(** ** Retrieval *)

#[local] Instance closer_total q : Total (closer similarity q).
Proof.
  intros a b. unfold closer.
  destruct (Qlt_le_dec (similarity q (embedding a)) (similarity q (embedding b))) as [H|H].
  - right. by apply Qlt_le_weak.
  - by left.
Qed.

#[local] Instance closer_transitive q : Transitive (closer similarity q).
Proof. intros a b c Hab Hbc. unfold closer in *. by eapply Qle_trans. Qed.

(** [top_k] keeps [k] chunks (all of them when there are fewer), and no
    chunk left out is more similar to the question than a chunk kept. *)
Lemma top_k_spec (k : nat) (q : Embedding) (ns : list (@Node Embedding)) :
  length (top_k similarity k q ns) = Nat.min k (length ns) /\
  exists rest,
    top_k similarity k q ns ++ rest ≡ₚ ns /\
    forall a b, a ∈ top_k similarity k q ns -> b ∈ rest ->
      (similarity q (embedding b) <= similarity q (embedding a))%Q.
Proof.
  unfold top_k. split.
  - by rewrite length_take, (Permutation_length (merge_sort_Permutation _ ns)).
  - exists (drop k (merge_sort (closer similarity q) ns)). split.
    + rewrite take_drop. apply merge_sort_Permutation.
    + intros a b Ha Hb.
      pose proof (StronglySorted_merge_sort (closer similarity q) ns) as Hsorted.
      rewrite <- (take_drop k (merge_sort (closer similarity q) ns)) in Hsorted.
      exact (StronglySorted_app_1_elem_of _ _ _ a b Hsorted Ha Hb).
Qed.

(** ** The query pipeline *)

Ltac unfold_query :=
  unfold query, engine_query, log_query, next_llm_call; run.

(** C7: [query] retrieves the three chunks most similar to the question,
    gives the LLM the "window" metadata of each in place of its text, and
    returns the completion stripped: what was removed at either end is white
    space, and no white space is left at either end. *)
Theorem query_contract (index : Index) (question : pystr) (w : World) :
  similarity_top_k (_create_query_engine index) = 3%nat /\
  node_postprocessors (_create_query_engine index)
  = [MetadataReplacementPostProcessor (window_metadata_key _configure_settings)] /\
  snd (ask (MkRAG _configure_settings index (_create_query_engine index)) question w)
  = (q ← embed question;
     answer ← complete (llm_calls w)
                (map (fun n => default (text n) (metadata n !! lit "window"))
                     (top_k similarity 3 q (nodes index)))
                question;
     Ok (strip answer)) /\
  (forall q,
     length (top_k similarity 3 q (nodes index)) = Nat.min 3 (length (nodes index)) /\
     exists rest,
       top_k similarity 3 q (nodes index) ++ rest ≡ₚ nodes index /\
       forall a b, a ∈ top_k similarity 3 q (nodes index) -> b ∈ rest ->
         (similarity q (embedding b) <= similarity q (embedding a))%Q) /\
  (forall answer,
     (exists l r, answer = l ++ strip answer ++ r /\ all_space l /\ all_space r) /\
     (forall c, head (strip answer) = Some c -> is_space c = false) /\
     (forall c, last (strip answer) = Some c -> is_space c = false)).
Proof.
  split; [reflexivity|]. split; [reflexivity|]. split; [|split].
  - unfold_query. destruct (embed question) as [q|e]; simpl; [|reflexivity].
    rewrite map_map. simpl.
    by destruct (complete (llm_calls w) _ question).
  - intros q. apply top_k_spec.
  - intros answer. apply strip_spec.
Qed.

(** A query logs the handle of its engine and the question, and touches
    neither the terminal nor the printed lines nor the storage. *)
Lemma query_effects (rag : RAGSystem) (question : pystr) (w w' : World) r :
  ask rag question w = (w', r) ->
  queries w' = queries w ++ [(engine_index (query_engine rag), question)] /\
  stdin w' = stdin w /\ stdout w' = stdout w /\
  storage w' = storage w /\ data w' = data w.
Proof.
  unfold_query. destruct (embed question) as [q|e]; simpl.
  - destruct (complete (llm_calls w) _ question); simpl; by intros [= <- <-].
  - by intros [= <- <-].
Qed.

(** ** The session loop *)

Ltac unfold_body :=
  unfold loop_body, input, read_line, print; run.

(** The world asked for is the one computed. *)
Ltac given_world :=
  eexists; split; [reflexivity|]; simpl; rewrite <- ?app_assoc; by repeat split.

(** A sentinel leaves the loop, and no query is made. *)
Lemma body_sentinel (rag : RAGSystem) (w : World) line rest :
  stdin w = Ok line :: rest ->
  lowered line ∈ sentinels ->
  exists w', body rag w = (w', Ok Break) /\
    stdin w' = rest /\ stdout w' = stdout w ++ [OutPrompt] /\
    queries w' = queries w /\ llm_calls w' = llm_calls w.
Proof.
  intros Hin Hs. unfold_body. rewrite Hin. simpl.
  rewrite bool_decide_eq_true_2 by exact Hs. simpl.
  given_world.
Qed.

(** Any other line is passed to [query]; [fst (input w)] is the world in
    which the query starts. *)
Lemma body_question (rag : RAGSystem) (w : World) line rest :
  stdin w = Ok line :: rest ->
  lowered line ∉ sentinels ->
  stdin (fst (input w)) = rest /\
  stdout (fst (input w)) = stdout w ++ [OutPrompt] /\
  queries (fst (input w)) = queries w /\
  storage (fst (input w)) = storage w /\
  forall w2 r, ask rag line (fst (input w)) = (w2, r) ->
    match r with
    | Ok response =>
        exists w', body rag w = (w', Ok Continue) /\
          stdin w' = stdin w2 /\ queries w' = queries w2 /\ storage w' = storage w2 /\
          stdout w' = stdout w2 ++ [OutAnswer response]
    | Raise e =>
        if isinstance e Exception
        then exists w', body rag w = (w', Ok Continue) /\
               stdin w' = stdin w2 /\ queries w' = queries w2 /\ storage w' = storage w2 /\
               stdout w' = stdout w2 ++ [OutError (exn_str e); OutHint]
        else body rag w = (w2, Raise e)
    end.
Proof.
  intros Hin Hs. unfold_body. rewrite Hin. simpl.
  repeat split; try done.
  intros w2 r Hq. rewrite bool_decide_eq_false_2 by exact Hs. simpl.
  rewrite Hq. destruct r as [response|e]; simpl.
  - given_world.
  - destruct (isinstance e Exception); [|reflexivity].
    given_world.
Qed.

(** An exception raised by [input] itself. *)
Lemma body_input_raises (rag : RAGSystem) (w : World) e :
  (stdin w = [] /\ e = end_of_input) \/ (exists rest, stdin w = Raise e :: rest) ->
  if isinstance e Exception
  then exists w', body rag w = (w', Ok Continue) /\
         stdin w' = tail (stdin w) /\ queries w' = queries w /\
         stdout w' = stdout w ++ [OutPrompt; OutError (exn_str e); OutHint]
  else exists w', body rag w = (w', Raise e) /\ stdin w' = tail (stdin w).
Proof.
  intros [[Hin ->] | [rest Hin]]; unfold_body; rewrite Hin; simpl.
  - given_world.
  - destruct (isinstance e Exception); given_world.
Qed.

(** The three ways in which a pass through the body can end. *)
Lemma body_cases (rag : RAGSystem) (w w' : World) r :
  body rag w = (w', r) ->
  stdin w' = tail (stdin w) /\
  match r with
  | Ok Break => exists line, head (stdin w) = Some (Ok line) /\ lowered line ∈ sentinels
  | Ok Continue => True
  | Raise e => isinstance e Exception = false
  end.
Proof.
  destruct (stdin w) as [|[line|e] rest] eqn:Hin.
  - pose proof (body_input_raises rag w end_of_input (or_introl (conj Hin eq_refl))) as H.
    simpl in H. destruct H as (w1 & -> & Ht & _). rewrite Hin in Ht.
    by intros [= <- <-].
  - destruct (decide (lowered line ∈ sentinels)) as [Hs|Hs].
    + destruct (body_sentinel rag w line rest Hin Hs) as (w1 & -> & Ht & _).
      intros [= <- <-]. split; [done|]. by exists line.
    + destruct (body_question rag w line rest Hin Hs) as (Ht & _ & _ & _ & Hq).
      destruct (ask rag line (fst (input w))) as [w2 r2] eqn:Hask.
      specialize (Hq w2 r2 eq_refl).
      destruct (query_effects rag line _ w2 r2 Hask) as (_ & Ht2 & _).
      rewrite Ht in Ht2.
      destruct r2 as [response|e]; simpl in Hq.
      * destruct Hq as (w1 & -> & Ht1 & _). intros [= <- <-].
        split; [simpl; congruence | done].
      * destruct (isinstance e Exception) eqn:He.
        -- destruct Hq as (w1 & -> & Ht1 & _). intros [= <- <-].
           split; [simpl; congruence | done].
        -- rewrite Hq. intros [= <- <-]. split; [simpl; congruence | done].
  - pose proof (body_input_raises rag w e (or_intror (ex_intro _ rest Hin))) as H.
    destruct (isinstance e Exception) eqn:He.
    + destruct H as (w1 & -> & Ht & _). rewrite Hin in Ht. by intros [= <- <-].
    + destruct H as (w1 & -> & Ht). rewrite Hin in Ht. by intros [= <- <-].
Qed.

Lemma loop_step (n : nat) (rag : RAGSystem) (w : World) :
  loop (S n) rag w =
    match body rag w with
    | (w', Ok Break) => (w', Finished)
    | (w', Ok Continue) => loop n rag w'
    | (w', Raise e) => (w', Terminated e)
    end.
Proof. reflexivity. Qed.

(** C8: a line whose lower-case form is "exit" or "quit" ends the session
    and no query is made; any other line is passed as it is to the query
    pipeline. Every casing of the two words is a sentinel. *)
Theorem sentinel_or_question (rag : RAGSystem) (w : World) line rest :
  stdin w = Ok line :: rest ->
  (lowered line ∈ sentinels ->
     exists w', body rag w = (w', Ok Break) /\
       queries w' = queries w /\ llm_calls w' = llm_calls w /\
       forall n, loop (S n) rag w = (w', Finished)) /\
  (lowered line ∉ sentinels ->
     forall w' r, body rag w = (w', r) ->
       r <> Ok Break /\
       queries w' = queries w ++ [(engine_index (query_engine rag), line)]) /\
  (forall word, word ∈ sentinels -> map ascii_lower line = word -> lowered line = word).
Proof.
  intros Hin. split; [|split].
  - intros Hs.
    destruct (body_sentinel rag w line rest Hin Hs) as (w' & Hb & _ & _ & Hq & Hl).
    exists w'. repeat split; try done.
    intros n. by rewrite loop_step, Hb.
  - intros Hs w' r Hb.
    destruct (body_question rag w line rest Hin Hs) as (_ & _ & Hq0 & _ & Hq).
    destruct (ask rag line (fst (input w))) as [w2 r2] eqn:Hask.
    specialize (Hq w2 r2 eq_refl).
    destruct (query_effects rag line _ w2 r2 Hask) as (Hq2 & _).
    rewrite Hq0 in Hq2.
    destruct r2 as [response|e]; simpl in Hq.
    + destruct Hq as (w1 & Hb1 & _ & Hq1 & _).
      rewrite Hb1 in Hb. injection Hb as <- <-. split; [discriminate | congruence].
    + destruct (isinstance e Exception).
      * destruct Hq as (w1 & Hb1 & _ & Hq1 & _).
        rewrite Hb1 in Hb. injection Hb as <- <-. split; [discriminate | congruence].
      * rewrite Hq in Hb. injection Hb as <- <-. split; [discriminate | congruence].
  - intros word Hword Hcase. apply lower_of_cased_word; [|exact Hcase].
    apply list_elem_of_In in Hword.
    destruct Hword as [<- | [<- | []]]; repeat constructor.
Qed.

(** C6: a question whose query fails with an exception of class [Exception]
    (a backend or network error) does not end the session. The exception is
    caught in the loop, the message and the hint are printed, the loop goes
    on with the same [RAGSystem], the storage is untouched, and the next
    question is put to the same index handle. *)
Theorem failed_query_keeps_session (rag : RAGSystem) (w w2 : World) line rest e :
  stdin w = Ok line :: rest ->
  lowered line ∉ sentinels ->
  ask rag line (fst (input w)) = (w2, Raise e) ->
  isinstance e Exception = true ->
  exists w',
    body rag w = (w', Ok Continue) /\
    stdout w' = stdout w ++ [OutPrompt; OutError (exn_str e); OutHint] /\
    stdin w' = rest /\
    storage w' = storage w /\
    queries w' = queries w ++ [(engine_index (query_engine rag), line)] /\
    (forall n, loop (S n) rag w = loop n rag w') /\
    (forall line' rest' w3 response,
       stdin w' = Ok line' :: rest' ->
       lowered line' ∉ sentinels ->
       ask rag line' (fst (input w')) = (w3, Ok response) ->
       exists w'',
         body rag w' = (w'', Ok Continue) /\
         queries w'' = queries w' ++ [(engine_index (query_engine rag), line')] /\
         stdout w'' = stdout w' ++ [OutPrompt; OutAnswer response]).
Proof.
  intros Hin Hs Hask He.
  destruct (body_question rag w line rest Hin Hs) as (Ht0 & Ho0 & Hq0 & Hs0 & Hq).
  specialize (Hq w2 (Raise e) Hask). simpl in Hq. rewrite He in Hq.
  destruct Hq as (w' & Hb & Ht & Hq & Hst & Ho).
  destruct (query_effects rag line _ w2 _ Hask) as (Hq2 & Ht2 & Ho2 & Hs2 & _).
  exists w'. split; [exact Hb|]. split; [|split; [|split; [|split; [|split]]]].
  - rewrite Ho, Ho2, Ho0, <- app_assoc. reflexivity.
  - congruence.
  - congruence.
  - congruence.
  - intros n. by rewrite loop_step, Hb.
  - intros line' rest' w3 response Hin' Hs' Hask'.
    destruct (body_question rag w' line' rest' Hin' Hs') as (_ & Ho0' & Hq0' & _ & Hq').
    specialize (Hq' w3 (Ok response) Hask'). simpl in Hq'.
    destruct Hq' as (w'' & Hb' & _ & Hq'' & _ & Ho').
    destruct (query_effects rag line' _ w3 _ Hask') as (Hq3 & _ & Ho3 & _).
    exists w''. split; [exact Hb'|]. split.
    + congruence.
    + rewrite Ho', Ho3, Ho0', <- app_assoc. reflexivity.
Qed.

(** C10, as the code has it: the loop is left by a sentinel line, or by an
    exception which is not an instance of [Exception] ([KeyboardInterrupt],
    [SystemExit]) and which the handler does not catch. Exceptions of class
    [Exception] never leave the loop; in particular, once the input is
    exhausted every pass raises [EOFError] and the loop keeps running. *)
Theorem session_leaves_loop (n : nat) (rag : RAGSystem) : forall (w w' : World) st,
  loop n rag w = (w', st) ->
  (st = Finished ->
     exists pre line post,
       stdin w = pre ++ Ok line :: post /\ lowered line ∈ sentinels /\ stdin w' = post) /\
  (forall e, st = Terminated e -> isinstance e Exception = false) /\
  (stdin w = [] -> st = Running).
Proof.
  induction n as [|n IH]; intros w w' st Hloop.
  - injection Hloop as <- <-. split; [discriminate | split; [discriminate | done]].
  - rewrite loop_step in Hloop.
    destruct (body rag w) as [w1 r] eqn:Hb.
    destruct (body_cases rag w w1 r Hb) as [Htail Hr].
    destruct r as [[|]|e].
    + injection Hloop as <- <-. destruct Hr as (line & Hhead & Hs).
      split; [|split]; [| discriminate |].
      * intros _. exists [], line, (stdin w1). simpl. split; [|done].
        destruct (stdin w) as [|x t]; [discriminate|].
        simpl in *. congruence.
      * intros Hnil. rewrite Hnil in Hhead. discriminate.
    + destruct (IH w1 w' st Hloop) as (Hfin & Hterm & Hnil).
      split; [|split]; [| exact Hterm |].
      * intros Hst. destruct (Hfin Hst) as (pre & line & post & Hin & Hs & Hpost).
        destruct (stdin w) as [|x t] eqn:Hw.
        -- simpl in Htail. rewrite Htail in Hin. by destruct pre.
        -- simpl in Htail. exists (x :: pre), line, post.
           split; [|done]. simpl. congruence.
      * intros Hw. apply Hnil. by rewrite Htail, Hw.
    + injection Hloop as <- <-.
      split; [|split]; [discriminate | |].
      * intros e' [= <-]. exact Hr.
      * intros Hw.
        pose proof (body_input_raises rag w end_of_input (or_introl (conj Hw eq_refl))) as H.
        simpl in H. destruct H as (w2 & Hb2 & _). congruence.
Qed.

(** ** Further properties of the start and of the session *)

(** The staleness decision and the fingerprint computation change nothing:
    they return in the world in which they started. *)
Theorem decision_has_no_side_effect (w : World) :
  fst (check w) = w /\ fst (@_get_documents_hash Index Stored w) = w.
Proof.
  split; [|reflexivity].
  destruct (storage w) as [st|] eqn:Hs.
  - by rewrite (check_with_storage w st Hs).
  - by rewrite (check_no_storage w Hs).
Qed.

(** After a rebuild that returns, reading the sidecar gives the fingerprint
    of the corpus, and loading gives what the library loads from the
    representation that [persist] wrote for the index built. *)
Theorem rebuild_then_read_back (w w1 : World) index :
  rebuild w = (w1, Ok index) ->
  exists h s,
    snd (@read_hash_file Index Stored w1) = Ok h /\
    documents_hash (data w1) = Ok h /\
    persist index = Ok s /\
    snd (load_persisted load_index_from_storage w1) = load_index_from_storage (Some s).
Proof.
  intros Hrun.
  destruct (rebuild_returns w w1 index Hrun)
    as (docs & s & h & _ & _ & Hp & Hh & Hd & Hs & _).
  exists h, s. unfold read_hash_file, load_persisted. simpl.
  rewrite Hs, Hd. by repeat split.
Qed.

(** One pass through the loop body leaves the corpus and the storage
    directory as they were. *)
Lemma body_keeps_storage (rag : RAGSystem) (w w' : World) r :
  body rag w = (w', r) ->
  storage w' = storage w /\ observed w' = observed w /\ data w' = data w.
Proof.
  unfold_body. unfold_query.
  destruct (stdin w) as [|[line|e] rest]; simpl.
  - by intros [= <- <-].
  - destruct (bool_decide _); simpl; [by intros [= <- <-]|].
    destruct (embed line) as [q|e]; simpl.
    + destruct (complete (llm_calls w) _ line) as [answer|e]; simpl.
      * by intros [= <- <-].
      * destruct (isinstance e Exception); by intros [= <- <-].
    + destruct (isinstance e Exception); by intros [= <- <-].
  - destruct (isinstance e Exception); by intros [= <- <-].
Qed.

(** The decision is taken once, at startup: however long the session runs,
    it neither rebuilds nor writes to the storage directory. *)
Theorem session_keeps_storage (n : nat) (rag : RAGSystem) : forall w : World,
  storage (fst (loop n rag w)) = storage w /\
  observed (fst (loop n rag w)) = observed w /\
  data (fst (loop n rag w)) = data w.
Proof.
  induction n as [|n IH]; intros w; [done|].
  rewrite loop_step. destruct (body rag w) as [w1 r] eqn:Hb.
  destruct (body_keeps_storage rag w w1 r Hb) as (Hs & Ho & Hd).
  destruct r as [[|]|e]; simpl; try done.
  destruct (IH w1) as (Hs' & Ho' & Hd'). repeat split; congruence.
Qed.

(** Without API key nothing is started: the message is printed and the
    script exits with status 1. *)
Theorem missing_key_stops_startup (n : nat) (w : World) :
  environ w !! lit "GEMINI_API_KEY" = None \/
  environ w !! lit "GEMINI_API_KEY" = Some [] ->
  snd (main load_data from_documents persist load_index_from_storage
            embed similarity complete nodes unicode_lower n w)
  = Terminated system_exit_1 /\
  stdout (fst (main load_data from_documents persist load_index_from_storage
                    embed similarity complete nodes unicode_lower n w))
  = stdout w ++ [OutConfigMissing] /\
  storage (fst (main load_data from_documents persist load_index_from_storage
                     embed similarity complete nodes unicode_lower n w))
  = storage w.
Proof. intros [H|H]; unfold main; unfold pystr in *; rewrite H; by repeat split. Qed.

(** A failure while the index is built or loaded ends the program before
    the session starts. *)
Theorem startup_failure_is_fatal (n : nat) (w : World) key e :
  environ w !! lit "GEMINI_API_KEY" = Some key ->
  key <> [] ->
  snd (init (fst (@print Index Stored OutInit w))) = Raise e ->
  snd (main load_data from_documents persist load_index_from_storage
            embed similarity complete nodes unicode_lower n w)
  = Terminated e.
Proof.
  intros Hkey Hne Hinit. unfold main. unfold pystr in *. rewrite Hkey.
  destruct key as [|c key]; [done|].
  unfold mbind at 1, M_bind at 1.
  destruct (print OutInit w) as [w0 [[]|e0]] eqn:Hp; [|discriminate].
  simpl in Hinit.
  unfold mbind at 1, M_bind at 1.
  destruct (init w0) as [w1 [rag|e1]]; simpl in Hinit; [discriminate|].
  by injection Hinit as ->.
Qed.

(** ** Further properties of the fingerprint *)

(** The fingerprint is always 64 characters out of [0-9a-f]. *)
Theorem fingerprint_format (w : World) (fp : pystr) :
  snd (@_get_documents_hash Index Stored w) = Ok fp ->
  length fp = 64%nat /\ Forall (fun c => SHA256.is_lower_hex c = true) fp.
Proof.
  unfold _get_documents_hash, documents_hash. simpl.
  destruct (update_items hashlib.sha256 (os_walk_data (data w))) as [h|e];
    simpl; [|discriminate].
  intros [= <-]. apply hexdigest_format.
Qed.

(** [_get_documents_hash] raises exactly when a file of the walk cannot be
    read, and then with the exception of the first such file. *)
Theorem hash_raises_first_unreadable (w : World) (e : exn) :
  snd (@_get_documents_hash Index Stored w) = Raise e <->
  exists pre name post,
    visited_files (data w) = pre ++ (name, Raise e) :: post /\
    Forall (fun f => exists bytes, snd f = Ok bytes) pre.
Proof.
  unfold _get_documents_hash. simpl. rewrite documents_hash_corpus_bytes.
  unfold corpus_bytes. rewrite <- read_all_raises.
  destruct (read_all (visited_files (data w))); simpl; split; congruence.
Qed.

(** A corpus in which the walk meets no file, however many directories it
    has, gets the digest of the empty message. *)
Theorem fingerprint_of_fileless_corpus (w : World) :
  visited_files (data w) = [] ->
  snd (@_get_documents_hash Index Stored w)
  = Ok (lit "e3b0c44298fc1c149afbf4c8996fb92427ae41e4649b934ca495991b7852b855").
Proof.
  intros Hnone. unfold _get_documents_hash. simpl.
  rewrite documents_hash_corpus_bytes. unfold corpus_bytes. rewrite Hnone.
  vm_compute. reflexivity.
Qed.

(** ** Further properties of the start *)

(** A rebuild that raises has printed its first line only and leaves a
    storage directory. Either the failure is the one of the fingerprint
    computed after [persist], and the index files are the new ones, next to
    a record that line 94 has emptied; or it comes from the library before
    anything was persisted, and the index files and the fingerprint record
    are the ones from before. *)
Lemma rebuild_raises (w w1 : World) e :
  rebuild w = (w1, Raise e) ->
  data w1 = data w /\
  stdout w1 = stdout w ++ [OutRebuilding] /\
  storage w1 <> None /\
  ((exists docs index s,
      load_data (data w) = Ok docs /\ from_documents docs = Ok index /\
      persist index = Ok s /\ documents_hash (data w) = Raise e /\
      index_files (storage w1) = Some s /\ sidecar (storage w1) = Ok [])
   \/ (index_files (storage w1) = index_files (storage w) /\
       sidecar (storage w1) = sidecar (storage w) /\
       (load_data (data w) = Raise e
        \/ (exists docs, load_data (data w) = Ok docs /\
                         (from_documents docs = Raise e
                          \/ exists index, from_documents docs = Ok index /\
                                           persist index = Raise e))))).
Proof.
  unfold_rebuild.
  destruct (storage w) as [st|] eqn:Hs; simpl;
    destruct (load_data (data w)) as [docs|e0] eqn:Hd; simpl;
    try destruct (from_documents docs) as [ix|e1] eqn:Hi; simpl;
    try destruct (persist ix) as [s|e2] eqn:Hp; simpl;
    try destruct (documents_hash (data w)) as [h|e3] eqn:Hh; simpl;
    intros [= <- <-]; simpl; rewrite ?Hs; simpl;
    (split; [reflexivity|]); (split; [reflexivity|]); (split; [discriminate|]);
    first [ left; exists docs, ix, s; by repeat split
          | right; split; [reflexivity|]; split; [reflexivity|]; eauto 10 ].
Qed.

(** The frame of [_build_or_load_index]: it reads the corpus and writes the
    storage directory and the output, nothing else. *)
Lemma build_frame (w w1 : World) r :
  build w = (w1, r) ->
  environ w1 = environ w /\ data w1 = data w /\ stdin w1 = stdin w /\
  queries w1 = queries w /\ llm_calls w1 = llm_calls w /\ clock w1 = clock w.
Proof.
  unfold _build_or_load_index, check_rebuild, storage_exists, read_hash_file,
         load_index, load_persisted.
  unfold_rebuild.
  destruct (storage w) as [st|] eqn:Hs; simpl.
  - destruct (documents_hash (data w)) as [h|e] eqn:Hh; simpl;
      [|by intros [= <- <-]].
    rewrite Hs. simpl.
    destruct (hash_file st) as [stored|e] eqn:Hf; simpl.
    + destruct (bool_decide (h = stored)); simpl.
      * by intros [= <- <-].
      * rewrite Hs. simpl.
        destruct (load_data (data w)) as [docs|] eqn:Hd; simpl;
          try destruct (from_documents docs) as [ix|] eqn:Hi; simpl;
          try destruct (persist ix) as [s|] eqn:Hp; simpl; rewrite ?Hs; simpl;
          rewrite ?Hh; simpl; by intros [= <- <-].
    + destruct (isinstance e FileNotFoundError); simpl; [|by intros [= <- <-]].
      rewrite Hs. simpl.
      destruct (load_data (data w)) as [docs|] eqn:Hd; simpl;
        try destruct (from_documents docs) as [ix|] eqn:Hi; simpl;
        try destruct (persist ix) as [s|] eqn:Hp; simpl; rewrite ?Hs; simpl;
        rewrite ?Hh; simpl; by intros [= <- <-].
  - rewrite Hs. simpl.
    destruct (load_data (data w)) as [docs|] eqn:Hd; simpl;
      try destruct (from_documents docs) as [ix|] eqn:Hi; simpl;
      try destruct (persist ix) as [s|] eqn:Hp; simpl;
      try destruct (documents_hash (data w)) as [h|] eqn:Hh; simpl;
      by intros [= <- <-].
Qed.

(** With a file that cannot be read the program never starts. When the
    storage directory exists the decision raises at once, before anything
    is printed or written; on a first start the library builds the index
    and persists it, and only then the fingerprint raises: the index files
    of a start that failed are left in the storage directory. *)
Theorem unreadable_corpus_never_starts (w w1 : World) r e :
  documents_hash (data w) = Raise e ->
  build w = (w1, r) ->
  (exists e', r = Raise e') /\
  (storage w <> None -> r = Raise e /\ w1 = w) /\
  (storage w = None ->
   forall docs index s,
     load_data (data w) = Ok docs -> from_documents docs = Ok index ->
     persist index = Ok s ->
     r = Raise e /\ index_files (storage w1) = Some s /\
     stdout w1 = stdout w ++ [OutRebuilding]).
Proof.
  intros Hh Hb. destruct (storage w) as [st|] eqn:Hs.
  - pose proof (check_with_storage w st Hs) as Hc. rewrite Hh in Hc.
    rewrite (build_check_raises w e Hc) in Hb. injection Hb as <- <-.
    split; [by exists e|]. split; [done|]. discriminate.
  - pose proof (build_after_check w true None (check_no_storage w Hs)) as Hr.
    simpl in Hr. rewrite Hr in Hb.
    destruct r as [index|e'].
    + destruct (rebuild_returns w w1 index Hb) as (? & ? & h & _ & _ & _ & Hh' & _).
      congruence.
    + split; [by exists e'|]. split; [done|].
      intros _ docs index s Hd Hi Hp.
      destruct (rebuild_raises w w1 e' Hb) as (_ & Hout & _ & Hcase).
      destruct Hcase as [(docs' & index' & s' & Hd' & Hi' & Hp' & Hh' & Hfiles & _)
                        | (_ & _ & [Hd' | (docs' & Hd' & [Hi' | (index' & Hi' & Hp')])])].
      * repeat split; congruence.
      * congruence.
      * congruence.
      * congruence.
Qed.

(** A rebuild that fails is tried again: whatever the failure, the next
    start on the same corpus does not take the load branch. *)
Theorem failed_rebuild_is_retried (w w1 w2 : World) cur e :
  check w = (w, Ok (true, cur)) ->
  build w = (w1, Raise e) ->
  data w2 = data w ->
  storage w2 = storage w1 ->
  forall b cur2 w2', check w2 = (w2', Ok (b, cur2)) -> b = true.
Proof.
  intros Hcheck Hbuild Hdata Hstorage b cur2 w2' Hcheck2.
  rewrite (build_after_check w true cur Hcheck) in Hbuild. simpl in Hbuild.
  destruct (rebuild_raises w w1 e Hbuild) as (_ & _ & Hsome & Hcase).
  destruct (storage w1) as [st1|] eqn:Hs1; [|done].
  rewrite (check_with_storage w2 st1 Hstorage), Hdata in Hcheck2.
  destruct Hcase as [(_ & _ & _ & _ & _ & _ & Hraises & _) | (_ & Hside & _)];
    [by rewrite Hraises in Hcheck2|].
  simpl in Hside. rewrite Hside in Hcheck2.
  destruct (storage w) as [st|] eqn:Hs; simpl in Hcheck2.
  - rewrite (check_with_storage w st Hs) in Hcheck.
    destruct (documents_hash (data w)) as [current|]; [|discriminate].
    destruct (hash_file st) as [stored|e0].
    + injection Hcheck as Hb _. injection Hcheck2 as _ <- _. exact Hb.
    + destruct (isinstance e0 FileNotFoundError); [|discriminate].
      by injection Hcheck2 as _ <- _.
  - destruct (documents_hash (data w)) as [current|]; [|discriminate].
    by injection Hcheck2 as _ <- _.
Qed.

(** A start that loads is read-only: it prints its one line, returns what
    the library loads from the index files, writes nothing, and leaves a
    world on which the next start loads again. *)
Theorem fresh_start_is_read_only (w w1 : World) cur r :
  check w = (w, Ok (false, cur)) ->
  build w = (w1, r) ->
  storage w1 = storage w /\ observed w1 = observed w /\ data w1 = data w /\
  stdout w1 = stdout w ++ [OutLoading] /\
  r = load_index_from_storage (index_files (storage w)) /\
  check w1 = (w1, Ok (false, cur)).
Proof.
  intros Hcheck Hbuild.
  rewrite (build_after_check w false cur Hcheck) in Hbuild. simpl in Hbuild.
  unfold load_index, load_persisted, print in Hbuild. run.
  injection Hbuild as <- <-. simpl. repeat split; try done.
  destruct (storage w) as [st|] eqn:Hs.
  - rewrite (check_with_storage w st Hs) in Hcheck.
    rewrite (check_with_storage _ st); [|by simpl].
    simpl. injection Hcheck as ->. reflexivity.
  - rewrite (check_no_storage w Hs) in Hcheck. discriminate.
Qed.

(** The line "index updated" is printed exactly when the rebuild returns,
    that is after the index and the fingerprint have both been written; a
    rebuild that fails has printed the first line only, and has created the
    storage directory. *)
Theorem update_notice_follows_writes (w : World) :
  match snd (rebuild w) with
  | Ok index =>
      stdout (fst (rebuild w)) = stdout w ++ [OutRebuilding; OutUpdated (clock w)] /\
      exists s h, persist index = Ok s /\
                  storage (fst (rebuild w)) = Some (MkStorage (Ok h) (Some s))
  | Raise e =>
      stdout (fst (rebuild w)) = stdout w ++ [OutRebuilding] /\
      storage (fst (rebuild w)) <> None
  end.
Proof.
  destruct (rebuild w) as [w1 [index|e]] eqn:Hr; simpl.
  - destruct (rebuild_returns w w1 index Hr)
      as (docs & s & h & _ & _ & Hp & _ & _ & Hs & Hout & _).
    split; [exact Hout|]. by exists s, h.
  - destruct (rebuild_raises w w1 e Hr) as (_ & Hout & Hdir & _). by split.
Qed.

(** ** Further properties of [__init__] *)

(** [__init__] sets [all_proxy] from a non-empty [PROXY_URL] and changes
    nothing else of the environment, whether the index is then obtained or
    not. *)
Theorem init_sets_proxy (w : World) :
  environ (fst (init w))
  = match environ w !! lit "PROXY_URL" with
    | Some (c :: url) => <[lit "all_proxy" := c :: url]> (environ w)
    | _ => environ w
    end.
Proof.
  unfold __init__, mbind at 1, M_bind at 1.
  assert (exists w0, @configure_proxy Index Stored w = (w0, Ok tt) /\
            environ w0 = match environ w !! lit "PROXY_URL" with
                         | Some (c :: url) => <[lit "all_proxy" := c :: url]> (environ w)
                         | _ => environ w
                         end) as (w0 & -> & <-).
  { unfold configure_proxy. run.
    destruct (environ w !! lit "PROXY_URL") as [[|c url]|]; eexists; by split. }
  unfold mbind, M_bind.
  destruct (build w0) as [w1 r] eqn:Hb.
  destruct (build_frame w0 w1 r Hb) as (Henv & _).
  by destruct r.
Qed.

(** ** Further properties of the session *)

Lemma lstrip_fixed (s : pystr) :
  (forall c, head s = Some c -> is_space c = false) -> lstrip s = s.
Proof. destruct s as [|c s]; [done|]. intros H. simpl. by rewrite (H c). Qed.

Lemma strip_strip (s : pystr) : strip (strip s) = strip s.
Proof.
  destruct (strip_spec s) as (_ & Hhead & Hlast).
  unfold strip at 1. rewrite (lstrip_fixed _ Hhead).
  unfold rstrip. rewrite lstrip_fixed; [apply reverse_involutive|].
  intros c. rewrite head_reverse. apply Hlast.
Qed.

Lemma strip_all_space (s : pystr) : all_space s -> strip s = [].
Proof.
  intros Hs. unfold strip.
  assert (lstrip s = []) as ->; [|reflexivity].
  induction Hs as [|c s Hc _ IH]; simpl; [reflexivity|]. by rewrite Hc.
Qed.

(** [query] returns the completion stripped: stripping its result again
    changes nothing, and a completion of white space gives the empty
    string. *)
Theorem query_returns_stripped (rag : RAGSystem) (question : pystr) (w w' : World) r :
  ask rag question w = (w', Ok r) ->
  strip r = r /\
  exists completion,
    engine_query embed similarity complete nodes (query_engine rag) question w
    = (w', Ok completion) /\
    r = strip completion /\
    (all_space completion -> r = []).
Proof.
  unfold query. unfold mbind at 1, M_bind at 1.
  destruct (engine_query embed similarity complete nodes (query_engine rag) question w)
    as [w1 [completion|e]]; [|discriminate].
  intros [= <- <-]. split; [apply strip_strip|].
  exists completion. repeat split. apply strip_all_space.
Qed.

(** What one pass prints, asks and sends: the prompt first; an answer only
    in stripped form; at most one query, on the engine's index, with the line
    as it was typed; at most one request to the LLM backend. *)
Lemma body_trace (rag : RAGSystem) (w w1 : World) r :
  body rag w = (w1, r) ->
  (exists out, stdout w1 = stdout w ++ OutPrompt :: out /\
     Forall (fun o => forall a, o = OutAnswer a -> strip a = a) out) /\
  stdin w1 = tail (stdin w) /\
  ((queries w1 = queries w /\ llm_calls w1 = llm_calls w)
   \/ (exists line, head (stdin w) = Some (Ok line) /\ (lowered line ∉ sentinels) /\
         queries w1 = queries w ++ [(engine_index (query_engine rag), line)] /\
         (llm_calls w1 <= S (llm_calls w))%nat)).
Proof.
  unfold_body. unfold_query.
  destruct (stdin w) as [|[line|e] rest]; simpl.
  - intros [= <- <-]. simpl. split; [|split; [done | by left]].
    eexists. rewrite <- !app_assoc. split; [reflexivity|].
    repeat constructor; discriminate.
  - case_bool_decide as Hs; simpl.
    + intros [= <- <-]. simpl. split; [|split; [done | by left]].
      exists []. by split.
    + destruct (embed line) as [q|e]; simpl.
      * destruct (complete (llm_calls w) _ line) as [answer|e]; simpl.
        -- intros [= <- <-]. simpl. split; [|split; [done|right]].
           ++ eexists. rewrite <- !app_assoc. split; [reflexivity|].
              repeat constructor. intros a [= <-]. apply strip_strip.
           ++ exists line. repeat split; first [done | lia].
        -- destruct (isinstance e Exception); intros [= <- <-]; simpl;
             (split; [|split; [done|right]]);
             [ eexists; rewrite <- !app_assoc; split; [reflexivity|];
               repeat constructor; discriminate
             | exists line; repeat split; first [done | lia]
             | exists []; by split
             | exists line; repeat split; first [done | lia] ].
      * destruct (isinstance e Exception); intros [= <- <-]; simpl;
          (split; [|split; [done|right]]);
          [ eexists; rewrite <- !app_assoc; split; [reflexivity|];
            repeat constructor; discriminate
          | exists line; repeat split; first [done | lia]
          | exists []; by split
          | exists line; repeat split; first [done | lia] ].
  - destruct (isinstance e Exception); intros [= <- <-]; simpl;
      (split; [|split; [done | by left]]).
    + eexists. rewrite <- !app_assoc. split; [reflexivity|].
      repeat constructor; discriminate.
    + exists []. by split.
Qed.

(** What one pass adds to the queries: the line it reads, when the
    terminal delivers one and it is not a sentinel; nothing otherwise. *)
Lemma body_queries (rag : RAGSystem) (w w1 : World) r :
  body rag w = (w1, r) ->
  queries w1
  = queries w
    ++ map (fun q => (engine_index (query_engine rag), q))
           (filter (fun q => lowered q ∉ sentinels) (typed_lines (take 1 (stdin w)))).
Proof.
  intros Hb.
  destruct (body_trace rag w w1 r Hb) as (_ & _ & Hasked).
  destruct (stdin w) as [|[line|e] rest] eqn:Hin; simpl.
  - rewrite app_nil_r.
    destruct Hasked as [[Hsame _] | (line & Hhead & _)]; [exact Hsame | discriminate].
  - destruct (decide (lowered line ∈ sentinels)) as [Hs|Hs].
    + rewrite filter_cons_False by (intros Hno; by apply Hno). simpl.
      rewrite app_nil_r.
      destruct (body_sentinel rag w line rest Hin Hs) as (w' & Hb' & _ & _ & Hq & _).
      rewrite Hb' in Hb. by injection Hb as <- _.
    + rewrite filter_cons_True by exact Hs. simpl.
      destruct Hasked as [[Hsame _] | (line' & [= <-] & _ & Hone & _)]; [|exact Hone].
      exfalso.
      destruct (body_question rag w line rest Hin Hs) as (_ & _ & Hq0 & _ & Hq).
      destruct (ask rag line (fst (input w))) as [w2 r2] eqn:Hask.
      specialize (Hq w2 r2 eq_refl).
      destruct (query_effects rag line _ w2 r2 Hask) as (Hq2 & _).
      rewrite Hq0 in Hq2.
      assert (queries w1 = queries w2) as Hsame2.
      { destruct r2 as [response|e]; simpl in Hq.
        - destruct Hq as (w' & Hb' & _ & Hq' & _). rewrite Hb' in Hb.
          by injection Hb as <- _.
        - destruct (isinstance e Exception).
          + destruct Hq as (w' & Hb' & _ & Hq' & _). rewrite Hb' in Hb.
            by injection Hb as <- _.
          + rewrite Hq in Hb. by injection Hb as <- _. }
      rewrite Hsame2, Hq2 in Hsame.
      apply (f_equal length) in Hsame. rewrite length_app in Hsame. simpl in Hsame. lia.
  - rewrite app_nil_r.
    destruct Hasked as [[Hsame _] | (line & Hhead & _)]; [exact Hsame | discriminate].
Qed.

Lemma take_S_tail {A} (k : nat) (l : list A) :
  take (S k) l = take 1 l ++ take k (tail l).
Proof. destruct l; [by destruct k | reflexivity]. Qed.

Lemma drop_S_tail {A} (k : nat) (l : list A) : drop (S k) l = drop k (tail l).
Proof. destruct l; [by destruct k | reflexivity]. Qed.

(** The queries of a session are the lines read, in the order in which they
    were typed, without the sentinels and with nothing else: after some
    number of passes, at most [n], the session has taken that many outcomes
    off the terminal, and has sent to the index of the engine every line
    among them that is not a sentinel, once, as it was typed, in that
    order. *)
Theorem session_asks_one_index (n : nat) (rag : RAGSystem) : forall w : World,
  exists passes,
    (passes <= n)%nat /\
    stdin (fst (loop n rag w)) = drop passes (stdin w) /\
    queries (fst (loop n rag w))
    = queries w
      ++ map (fun q => (engine_index (query_engine rag), q))
             (filter (fun q => lowered q ∉ sentinels)
                     (typed_lines (take passes (stdin w)))).
Proof.
  induction n as [|n IH]; intros w.
  - exists 0%nat. simpl. rewrite drop_0, app_nil_r. by repeat split.
  - rewrite loop_step. destruct (body rag w) as [w1 r] eqn:Hb.
    pose proof (body_queries rag w w1 r Hb) as Hq.
    destruct (body_cases rag w w1 r Hb) as (Htail & _).
    destruct r as [[|]|e]; simpl.
    + exists 1%nat. split; [lia|]. split; [|exact Hq].
      rewrite Htail. by destruct (stdin w).
    + destruct (IH w1) as (k & Hk & Hin & Hqs).
      exists (S k). split; [lia|]. split.
      * rewrite Hin, Htail. symmetry. apply drop_S_tail.
      * unfold typed_lines in *.
        rewrite (take_S_tail k (stdin w)), omap_app, filter_app, map_app, app_assoc.
        by rewrite Hqs, Hq, Htail.
    + exists 1%nat. split; [lia|]. split; [|exact Hq].
      rewrite Htail. by destruct (stdin w).
Qed.

(** Whatever the backend completes, an answer is printed stripped: no
    answer line of a session has white space around it. *)
Theorem session_prints_stripped_answers (n : nat) (rag : RAGSystem) : forall w : World,
  exists out,
    stdout (fst (loop n rag w)) = stdout w ++ out /\
    Forall (fun o => forall a, o = OutAnswer a ->
              strip a = a /\
              (forall c, head a = Some c -> is_space c = false) /\
              (forall c, last a = Some c -> is_space c = false)) out.
Proof.
  assert (forall out,
            Forall (fun o => forall a, o = OutAnswer a -> strip a = a) out ->
            Forall (fun o => forall a, o = OutAnswer a ->
                      strip a = a /\
                      (forall c, head a = Some c -> is_space c = false) /\
                      (forall c, last a = Some c -> is_space c = false)) out) as Hends.
  { intros out Hout. eapply Forall_impl; [exact Hout|]. intros o Ho a ->.
    specialize (Ho a eq_refl). split; [exact Ho|].
    rewrite <- Ho. apply strip_spec. }
  induction n as [|n IH]; intros w.
  - exists []. simpl. by rewrite app_nil_r.
  - rewrite loop_step. destruct (body rag w) as [w1 r] eqn:Hb.
    destruct (body_trace rag w w1 r Hb) as ((out & Hout & Hstripped) & _).
    assert (Forall (fun o => forall a, o = OutAnswer a -> strip a = a)
                   (OutPrompt :: out)) as Hpass
      by (constructor; [discriminate | exact Hstripped]).
    destruct r as [[|]|e]; simpl.
    + exists (OutPrompt :: out). split; [exact Hout | by apply Hends].
    + destruct (IH w1) as (more & Hmore & Hmore').
      exists ((OutPrompt :: out) ++ more). rewrite Hmore, Hout, <- app_assoc.
      split; [reflexivity|]. apply Forall_app. split; [by apply Hends | exact Hmore'].
    + exists (OutPrompt :: out). split; [exact Hout | by apply Hends].
Qed.

(** On a closed terminal every pass prints the prompt, the [EOFError]
    message and the hint, and nothing is asked: after [n] passes the output
    has grown by [n] times these three lines. *)
Theorem closed_terminal_floods (n : nat) (rag : RAGSystem) : forall w : World,
  stdin w = [] ->
  stdout (fst (loop n rag w))
  = stdout w ++ concat (replicate n [OutPrompt; OutError (exn_str end_of_input); OutHint]) /\
  queries (fst (loop n rag w)) = queries w /\
  llm_calls (fst (loop n rag w)) = llm_calls w.
Proof.
  induction n as [|n IH]; intros w Hin.
  - simpl. by rewrite app_nil_r.
  - rewrite loop_step.
    assert (exists w1, body rag w = (w1, Ok Continue) /\ stdin w1 = [] /\
              stdout w1 = stdout w ++ [OutPrompt; OutError (exn_str end_of_input); OutHint] /\
              queries w1 = queries w /\ llm_calls w1 = llm_calls w)
      as (w1 & -> & Hin1 & Hout1 & Hq1 & Hl1).
    { unfold_body. rewrite Hin. simpl. eexists. split; [reflexivity|]. simpl.
      rewrite <- !app_assoc. by repeat split. }
    destruct (IH w1 Hin1) as (Hout & Hq & Hl).
    rewrite Hout, Hout1, Hq, Hq1, Hl, Hl1. cbn [replicate concat].
    by rewrite <- !app_assoc.
Qed.

Lemma lower_from_elem (s : pystr) (c : N) : forall before,
  c ∈ s -> (c < 128)%N -> ascii_lower c ∈ lower_from unicode_lower before s.
Proof.
  induction s as [|x s IH]; intros before Hc Hascii; [by apply elem_of_nil in Hc|].
  simpl. apply elem_of_app. apply elem_of_cons in Hc as [<- | Hc].
  - left. unfold lower_char. apply N.ltb_lt in Hascii as ->. by left.
  - right. by apply IH.
Qed.

Lemma space_not_in_sentinel (c : N) (word : pystr) :
  word ∈ sentinels -> (c < 128)%N -> is_space c = true -> ascii_lower c ∉ word.
Proof.
  intros Hword Hascii Hspace Hin.
  assert (ascii_lower c = c) as Hsame.
  { unfold ascii_lower. destruct ((65 <=? c) && (c <=? 90))%N eqn:Hupper; [|done].
    apply andb_prop in Hupper as [H1 H2].
    apply N.leb_le in H1. apply N.leb_le in H2.
    assert (is_space c = false) as Hno; [|congruence].
    unfold is_space.
    repeat match goal with
           | |- context [(?a <=? c)%N] => destruct (N.leb_spec a c); try lia
           | |- context [(c <=? ?a)%N] => destruct (N.leb_spec c a); try lia
           | |- context [(c =? ?a)%N] => destruct (N.eqb_spec c a); try lia
           end; reflexivity. }
  rewrite Hsame in Hin.
  apply list_elem_of_In in Hword. apply list_elem_of_In in Hin.
  destruct Hword as [<- | [<- | []]]; simpl in Hin;
    repeat (destruct Hin as [<- | Hin]; [discriminate Hspace|]); exact Hin.
Qed.

(** The line is not trimmed before the test: the empty line, and a line
    with an ASCII white space in it (a sentinel followed by a blank, say),
    are questions and go to the query pipeline as they are. *)
Theorem padded_or_empty_line_is_a_question (rag : RAGSystem) (w : World) line rest :
  stdin w = Ok line :: rest ->
  line = [] \/ (exists c, c ∈ line /\ (c < 128)%N /\ is_space c = true) ->
  (lowered line ∉ sentinels) /\
  forall w' r, body rag w = (w', r) ->
    r <> Ok Break /\
    queries w' = queries w ++ [(engine_index (query_engine rag), line)].
Proof.
  intros Hin Hline.
  assert (lowered line ∉ sentinels) as Hs.
  { destruct Hline as [-> | (c & Hc & Hascii & Hspace)].
    - unfold lower. simpl. intros H. apply list_elem_of_In in H.
      destruct H as [H | [H | []]]; discriminate H.
    - intros Hword.
      apply (space_not_in_sentinel c _ Hword Hascii Hspace).
      by apply lower_from_elem. }
  split; [exact Hs|]. intros w' r Hb.
  destruct (body_trace rag w w' r Hb) as (_ & _ & Hasked).
  destruct (body_cases rag w w' r Hb) as (_ & Hr).
  split.
  - intros ->. destruct Hr as (line' & Hhead & Hs'). rewrite Hin in Hhead.
    injection Hhead as <-. done.
  - destruct (body_question rag w line rest Hin Hs) as (_ & _ & Hq0 & _ & Hq).
    destruct (ask rag line (fst (input w))) as [w2 r2] eqn:Hask.
    specialize (Hq w2 r2 eq_refl).
    destruct (query_effects rag line _ w2 r2 Hask) as (Hq2 & _).
    rewrite Hq0 in Hq2.
    destruct r2 as [response|e]; simpl in Hq.
    + destruct Hq as (w1 & Hb1 & _ & Hq1 & _). rewrite Hb1 in Hb.
      injection Hb as <- <-. congruence.
    + destruct (isinstance e Exception).
      * destruct Hq as (w1 & Hb1 & _ & Hq1 & _). rewrite Hb1 in Hb.
        injection Hb as <- <-. congruence.
      * rewrite Hq in Hb. injection Hb as <- <-. congruence.
Qed.

End Properties.

(* ===================================================================== *)
(** * The properties on the small installation                            *)
(* ===================================================================== *)

Example first_start_rebuilds :
  snd (Demo.build Demo.first_start) = Ok Demo.first_index /\
  stdout Demo.after_first_start
  = [OutRebuilding; OutUpdated (lit "2024-01-01 00:00:00")] /\
  sidecar (storage Demo.after_first_start) = Ok Demo.corpus_fingerprint.
Proof. vm_compute. by repeat split. Qed.

Example session_run :
  snd (Demo.run_session 5 Demo.rag Demo.asks) = Finished /\
  stdout (fst (Demo.run_session 5 Demo.rag Demo.asks))
  = [OutPrompt; OutError (lit "backend unavailable"); OutHint;
     OutPrompt; OutAnswer (lit "a.txtb.txt"); OutPrompt].
Proof. vm_compute. by split. Qed.

(** C9 on an instance: two corpora whose files, names and depths differ and
    whose bytes, put end to end, are the same. *)
Lemma fingerprint_of_concatenation_witness :
  corpus_bytes (Some Demo.corpus) = corpus_bytes (Some Demo.corpus_recut) /\
  snd (_get_documents_hash (Demo.world (Some Demo.corpus_recut) None []))
  = snd (_get_documents_hash Demo.first_start).
Proof.
  split; [reflexivity|].
  apply (fingerprint_of_concatenation
           Demo.first_start (Demo.world (Some Demo.corpus_recut) None [])
           (list_byte_of_string "AB")); reflexivity.
Defined.



(** C5 on an instance: a start on a storage directory with another fingerprint.
    The decision computes the fingerprint of the corpus; the rebuild writes
    the index, empties the record, then writes that fingerprint. *)
Lemma index_persisted_before_fingerprint_witness :
  Demo.check Demo.stale_start
  = (Demo.stale_start, Ok (true, Some Demo.corpus_fingerprint)) /\
  storage (fst (Demo.build Demo.stale_start))
  = Some (MkStorage (Ok Demo.corpus_fingerprint) (Some Demo.first_index)) /\
  observed (fst (Demo.build Demo.stale_start))
  = [Some (MkStorage (Ok (lit "0000")) (Some Demo.first_index));
     Some (MkStorage (Ok []) (Some Demo.first_index));
     Some (MkStorage (Ok Demo.corpus_fingerprint) (Some Demo.first_index))].
Proof.
  assert (Demo.check Demo.stale_start
          = (Demo.stale_start, Ok (true, Some Demo.corpus_fingerprint))) as Hcheck
    by (vm_compute; reflexivity).
  assert (Demo.build Demo.stale_start
          = (fst (Demo.build Demo.stale_start), Ok Demo.first_index)) as Hbuild
    by (vm_compute; reflexivity).
  destruct (index_persisted_before_fingerprint
              Demo.load_data Demo.from_documents Demo.persist
              Demo.load_index_from_storage
              Demo.stale_start _ _ _ Hcheck Hbuild)
    as (_ & Hwritten & _).
  destruct (Hwritten Demo.first_index eq_refl) as (s & h & Hs & _ & Hstorage & Hsame).
  split; [exact Hcheck|]. split.
  - rewrite Hstorage, <- (Hsame _ eq_refl). injection Hs as <-. reflexivity.
  - vm_compute. reflexivity.
Defined.


(** C3 on an instance: without fingerprint record the start rebuilds; with a
    record that cannot be read it fails. *)
Lemma sidecar_read_failure_witness :
  Demo.build Demo.missing_sidecar = Demo.rebuild Demo.missing_sidecar /\
  snd (Demo.init Demo.unreadable_sidecar) = Raise Demo.permission_denied.
Proof.
  split.
  - refine (proj2 (proj1 (sidecar_read_failure
              Demo.load_data Demo.from_documents Demo.persist
              Demo.load_index_from_storage Demo.missing_sidecar
              _ no_such_hash_file Demo.corpus_fingerprint eq_refl eq_refl _) _));
      vm_compute; reflexivity.
  - refine (proj2 (proj2 (proj2 (sidecar_read_failure
              Demo.load_data Demo.from_documents Demo.persist
              Demo.load_index_from_storage Demo.unreadable_sidecar
              _ Demo.permission_denied Demo.corpus_fingerprint eq_refl eq_refl _) _)));
      vm_compute; reflexivity.
Defined.

(** C8 on an instance: [QUIT] ends the session without a query; [hello] is put
    to the index as it was typed. *)
Lemma sentinel_or_question_witness :
  (exists w', Demo.run_body Demo.rag Demo.says_quit = (w', Ok Break) /\
              queries w' = [] /\ llm_calls w' = 0%nat) /\
  queries (fst (Demo.run_body Demo.rag Demo.asks)) = [(Demo.first_index, lit "hello")].
Proof.
  split.
  - destruct (sentinel_or_question
                Demo.embed Demo.similarity Demo.complete Demo.nodes Demo.unicode_lower
                Demo.rag Demo.says_quit (lit "QUIT") [Ok (lit "x")] eq_refl)
      as (Hquit & _).
    destruct Hquit as (w' & Hbody & Hq & Hl & _).
    { apply (bool_decide_unpack _). vm_compute. exact I. }
    exists w'. by repeat split.
  - destruct (sentinel_or_question
                Demo.embed Demo.similarity Demo.complete Demo.nodes Demo.unicode_lower
                Demo.rag Demo.asks (lit "hello")
                [Ok (lit "b.txt?"); Ok (lit "ExIt"); Ok (lit "x")] eq_refl)
      as (_ & Hask & _).
    refine (proj2 (Hask _ (fst (Demo.run_body Demo.rag Demo.asks))
                        (snd (Demo.run_body Demo.rag Demo.asks)) _)).
    + apply (bool_decide_unpack _). vm_compute. exact I.
    + vm_compute. reflexivity.
Defined.

(** C6 on an instance: the backend is unavailable for the first question and
    answers the second one. *)
Lemma failed_query_keeps_session_witness :
  isinstance Demo.backend_unavailable Exception = true /\
  exists w',
    Demo.run_body Demo.rag Demo.asks = (w', Ok Continue) /\
    stdout w' = [OutPrompt; OutError (lit "backend unavailable"); OutHint] /\
    stdin w' = [Ok (lit "b.txt?"); Ok (lit "ExIt"); Ok (lit "x")] /\
    queries w' = [(Demo.first_index, lit "hello")] /\
    exists w'',
      Demo.run_body Demo.rag w' = (w'', Ok Continue) /\
      queries w'' = [(Demo.first_index, lit "hello"); (Demo.first_index, lit "b.txt?")].
Proof.
  split; [reflexivity|].
  destruct (failed_query_keeps_session
              Demo.embed Demo.similarity Demo.complete Demo.nodes Demo.unicode_lower
              Demo.rag Demo.asks
              (fst (Demo.run_query Demo.rag (lit "hello") (fst (input Demo.asks))))
              (lit "hello") [Ok (lit "b.txt?"); Ok (lit "ExIt"); Ok (lit "x")]
              Demo.backend_unavailable)
    as (w' & Hbody & Hout & Hin & _ & Hq & _ & Hnext).
  - reflexivity.
  - apply (bool_decide_unpack _). vm_compute. exact I.
  - vm_compute. reflexivity.
  - reflexivity.
  - exists w'. split; [exact Hbody|]. split; [exact Hout|]. split; [exact Hin|].
    split; [exact Hq|].
    destruct (Hnext (lit "b.txt?") [Ok (lit "ExIt"); Ok (lit "x")]
                    (fst (Demo.run_query Demo.rag (lit "b.txt?") (fst (input w'))))
                    (lit "a.txtb.txt") Hin)
      as (w'' & Hbody' & Hq' & _).
    + apply (bool_decide_unpack _). vm_compute. exact I.
    + injection Hbody as <-. vm_compute. reflexivity.
    + exists w''. split; [exact Hbody'|]. by rewrite Hq', Hq.
Defined.

(** C10 on an instance: the session of [Demo.asks] ends at the line [ExIt], the
    third one; on a closed terminal it is still running after any number of
    passes one cares to try. *)
Lemma session_leaves_loop_witness :
  (exists pre line post,
     stdin Demo.asks = pre ++ Ok line :: post /\
     lower Demo.unicode_lower line ∈ [lit "exit"; lit "quit"] /\
     stdin (fst (Demo.run_session 5 Demo.rag Demo.asks)) = post) /\
  snd (Demo.run_session 7 Demo.rag (Demo.world None None [])) = Running.
Proof.
  split.
  - refine (proj1 (session_leaves_loop
              Demo.embed Demo.similarity Demo.complete Demo.nodes Demo.unicode_lower
              5 Demo.rag Demo.asks (fst (Demo.run_session 5 Demo.rag Demo.asks))
              Finished _) eq_refl).
    vm_compute. reflexivity.
  - refine (proj2 (proj2 (session_leaves_loop
              Demo.embed Demo.similarity Demo.complete Demo.nodes Demo.unicode_lower
              7 Demo.rag (Demo.world None None [])
              (fst (Demo.run_session 7 Demo.rag (Demo.world None None [])))
              (snd (Demo.run_session 7 Demo.rag (Demo.world None None []))) _)) eq_refl).
    vm_compute. reflexivity.
Defined.

(** A corpus directory that is missing or empty is not an error for the
    fingerprint: nothing is fed to the hasher, and the digest is the one of
    the empty message. *)
Theorem fingerprint_without_files :
  documents_hash None
  = Ok (lit "e3b0c44298fc1c149afbf4c8996fb92427ae41e4649b934ca495991b7852b855") /\
  documents_hash (Some []) = documents_hash None.
Proof. vm_compute. by split. Qed.

(** [rebuild_then_read_back] on the first start. *)
Lemma rebuild_then_read_back_witness :
  snd (@read_hash_file Demo.Index Demo.Stored Demo.after_first_start)
  = Ok Demo.corpus_fingerprint /\
  snd (load_persisted Demo.load_index_from_storage Demo.after_first_start)
  = Ok Demo.first_index.
Proof.
  destruct (rebuild_then_read_back
              Demo.load_data Demo.from_documents Demo.persist
              Demo.load_index_from_storage
              Demo.first_start Demo.after_first_start Demo.first_index)
    as (h & s & Hread & Hh & Hs & Hload).
  - vm_compute. reflexivity.
  - split.
    + rewrite Hread, <- Hh. vm_compute. reflexivity.
    + rewrite Hload. injection Hs as <-. reflexivity.
Defined.

(** [missing_key_stops_startup] on an empty environment. *)
Lemma missing_key_stops_startup_witness :
  snd (Demo.run_main 3 Demo.no_key) = Terminated system_exit_1 /\
  stdout (fst (Demo.run_main 3 Demo.no_key)) = [OutConfigMissing].
Proof.
  destruct (missing_key_stops_startup
              Demo.load_data Demo.from_documents Demo.persist
              Demo.load_index_from_storage
              Demo.embed Demo.similarity Demo.complete Demo.nodes Demo.unicode_lower
              3 Demo.no_key (or_introl eq_refl))
    as (Hend & Hout & _).
  split; [exact Hend | exact Hout].
Defined.

(** [startup_failure_is_fatal] on a corpus without files. *)
Lemma startup_failure_is_fatal_witness :
  snd (Demo.run_main 3 Demo.empty_corpus) = Terminated Demo.no_files_found.
Proof.
  refine (startup_failure_is_fatal
            Demo.load_data Demo.from_documents Demo.persist
            Demo.load_index_from_storage
            Demo.embed Demo.similarity Demo.complete Demo.nodes Demo.unicode_lower
            3 Demo.empty_corpus (lit "k") Demo.no_files_found _ _ _).
  - vm_compute. reflexivity.
  - discriminate.
  - vm_compute. reflexivity.
Defined.

(** * Further properties on instances *)

(** [fingerprint_format] on the two-file corpus. *)
Lemma fingerprint_format_witness :
  snd (@_get_documents_hash Demo.Index Demo.Stored Demo.first_start)
  = Ok Demo.corpus_fingerprint /\
  length Demo.corpus_fingerprint = 64%nat /\
  Forall (fun c => SHA256.is_lower_hex c = true) Demo.corpus_fingerprint.
Proof.
  assert (snd (@_get_documents_hash Demo.Index Demo.Stored Demo.first_start)
          = Ok Demo.corpus_fingerprint) as Hfp by (vm_compute; reflexivity).
  split; [exact Hfp|].
  exact (fingerprint_format Demo.first_start Demo.corpus_fingerprint Hfp).
Defined.

(** [fingerprint_of_fileless_corpus] on a corpus of nested directories. *)
Lemma fingerprint_of_fileless_corpus_witness :
  visited_files (Some Demo.only_directories) = [] /\
  snd (@_get_documents_hash Demo.Index Demo.Stored
         (Demo.world (Some Demo.only_directories) None []))
  = Ok (lit "e3b0c44298fc1c149afbf4c8996fb92427ae41e4649b934ca495991b7852b855").
Proof.
  split; [reflexivity|].
  apply (fingerprint_of_fileless_corpus
           (Demo.world (Some Demo.only_directories) None [])).
  reflexivity.
Defined.

(** [unreadable_corpus_never_starts] on a corpus whose second file cannot
    be read, on a first start and with a storage directory. *)
Lemma unreadable_corpus_never_starts_witness :
  documents_hash (Some Demo.locked_corpus) = Raise Demo.file_locked /\
  snd (Demo.build Demo.locked_first_start) = Raise Demo.file_locked /\
  index_files (storage (fst (Demo.build Demo.locked_first_start)))
  = Some (map Demo.chunk_of [lit "a.txt"; lit "b.txt"; lit "c.txt"]) /\
  Demo.build Demo.locked_later_start
  = (Demo.locked_later_start, Raise Demo.file_locked).
Proof.
  assert (documents_hash (Some Demo.locked_corpus) = Raise Demo.file_locked) as Hh
    by (vm_compute; reflexivity).
  split; [exact Hh|].
  destruct (unreadable_corpus_never_starts
              Demo.load_data Demo.from_documents Demo.persist
              Demo.load_index_from_storage
              Demo.locked_first_start
              (fst (Demo.build Demo.locked_first_start))
              (snd (Demo.build Demo.locked_first_start))
              Demo.file_locked Hh (surjective_pairing _))
    as (_ & _ & Hfirst).
  destruct (Hfirst eq_refl [lit "a.txt"; lit "b.txt"; lit "c.txt"]
                   (map Demo.chunk_of [lit "a.txt"; lit "b.txt"; lit "c.txt"])
                   (map Demo.chunk_of [lit "a.txt"; lit "b.txt"; lit "c.txt"])
                   eq_refl eq_refl eq_refl)
    as (Hr & Hfiles & _).
  split; [exact Hr|]. split; [exact Hfiles|].
  destruct (unreadable_corpus_never_starts
              Demo.load_data Demo.from_documents Demo.persist
              Demo.load_index_from_storage
              Demo.locked_later_start
              (fst (Demo.build Demo.locked_later_start))
              (snd (Demo.build Demo.locked_later_start))
              Demo.file_locked Hh (surjective_pairing _))
    as (_ & Hlater & _).
  destruct Hlater as (Hr' & Hw'); [discriminate|].
  rewrite (surjective_pairing (Demo.build Demo.locked_later_start)).
  by rewrite Hr', Hw'.
Defined.

(** [failed_rebuild_is_retried] on a corpus without files: the library
    refuses to build, the storage directory is left behind, and the next
    start rebuilds. *)
Lemma failed_rebuild_is_retried_witness :
  Demo.build Demo.empty_corpus = (Demo.after_failed_start, Raise Demo.no_files_found) /\
  storage Demo.after_failed_start <> None /\
  exists cur,
    Demo.check Demo.start_after_failure = (Demo.start_after_failure, Ok (true, cur)).
Proof.
  assert (Demo.build Demo.empty_corpus
          = (Demo.after_failed_start, Raise Demo.no_files_found)) as Hbuild
    by (vm_compute; reflexivity).
  split; [exact Hbuild|]. split; [discriminate|].
  destruct (Demo.check Demo.start_after_failure) as [w' [[b cur]|e]] eqn:Hcheck.
  - assert (b = true) as ->.
    { apply (failed_rebuild_is_retried
               Demo.load_data Demo.from_documents Demo.persist
               Demo.load_index_from_storage
               Demo.empty_corpus Demo.after_failed_start Demo.start_after_failure
               None Demo.no_files_found eq_refl Hbuild eq_refl eq_refl
               b cur w' Hcheck). }
    exists cur. vm_compute in Hcheck. by injection Hcheck as <- _.
  - vm_compute in Hcheck. discriminate Hcheck.
Defined.

(** [fresh_start_is_read_only] on the second start. *)
Lemma fresh_start_is_read_only_witness :
  Demo.check Demo.second_start
  = (Demo.second_start, Ok (false, Some Demo.corpus_fingerprint)) /\
  storage (fst (Demo.build Demo.second_start)) = storage Demo.second_start /\
  stdout (fst (Demo.build Demo.second_start)) = [OutLoading] /\
  snd (Demo.build Demo.second_start) = Ok Demo.first_index.
Proof.
  assert (Demo.check Demo.second_start
          = (Demo.second_start, Ok (false, Some Demo.corpus_fingerprint))) as Hcheck
    by (vm_compute; reflexivity).
  split; [exact Hcheck|].
  destruct (fresh_start_is_read_only
              Demo.load_data Demo.from_documents Demo.persist
              Demo.load_index_from_storage
              Demo.second_start
              (fst (Demo.build Demo.second_start))
              (Some Demo.corpus_fingerprint)
              (snd (Demo.build Demo.second_start))
              Hcheck (surjective_pairing _))
    as (Hs & _ & _ & Hout & Hr & _).
  split; [exact Hs|]. split; [exact Hout|].
  rewrite Hr. vm_compute. reflexivity.
Defined.

(** [query_returns_stripped] with a backend that completes with blanks. *)
Lemma query_returns_stripped_witness :
  snd (query Demo.embed Demo.similarity Demo.blank_backend Demo.nodes
             Demo.rag (lit "hello") Demo.first_start)
  = Ok [] /\
  strip (lit "   ") = [].
Proof.
  destruct (query_returns_stripped
              Demo.embed Demo.similarity Demo.blank_backend Demo.nodes
              Demo.rag (lit "hello") Demo.first_start
              (fst (query Demo.embed Demo.similarity Demo.blank_backend Demo.nodes
                          Demo.rag (lit "hello") Demo.first_start))
              [])
    as (_ & completion & Hengine & Hr & _).
  - vm_compute. reflexivity.
  - split; [vm_compute; reflexivity|].
    vm_compute in Hengine. injection Hengine as <-. exact (eq_sym Hr).
Defined.

(** [closed_terminal_floods] on two passes of a terminal that is closed. *)
Lemma closed_terminal_floods_witness :
  stdin Demo.first_start = [] /\
  stdout (fst (Demo.run_session 2 Demo.rag Demo.first_start))
  = [OutPrompt; OutError (lit "EOF when reading a line"); OutHint;
     OutPrompt; OutError (lit "EOF when reading a line"); OutHint] /\
  queries (fst (Demo.run_session 2 Demo.rag Demo.first_start)) = [].
Proof.
  split; [reflexivity|].
  destruct (closed_terminal_floods
              Demo.embed Demo.similarity Demo.complete Demo.nodes Demo.unicode_lower
              2 Demo.rag Demo.first_start eq_refl)
    as (Hout & Hq & _).
  split; [exact Hout | exact Hq].
Defined.

(** [padded_or_empty_line_is_a_question] on the empty line and on the
    sentinel followed by a blank. *)
Lemma padded_or_empty_line_is_a_question_witness :
  queries (fst (Demo.run_body Demo.rag Demo.odd_lines)) = [(Demo.first_index, [])] /\
  snd (Demo.run_body Demo.rag Demo.odd_lines) <> Ok Break /\
  queries (fst (Demo.run_body Demo.rag (fst (Demo.run_body Demo.rag Demo.odd_lines))))
  = [(Demo.first_index, []); (Demo.first_index, lit "exit ")].
Proof.
  destruct (padded_or_empty_line_is_a_question
              Demo.embed Demo.similarity Demo.complete Demo.nodes Demo.unicode_lower
              Demo.rag Demo.odd_lines [] [Ok (lit "exit "); Ok (lit "exit")]
              eq_refl (or_introl eq_refl))
    as (_ & Hempty).
  destruct (Hempty _ _ (surjective_pairing _)) as (Hgoes & Hq).
  split; [exact Hq|]. split; [exact Hgoes|].
  destruct (padded_or_empty_line_is_a_question
              Demo.embed Demo.similarity Demo.complete Demo.nodes Demo.unicode_lower
              Demo.rag (fst (Demo.run_body Demo.rag Demo.odd_lines))
              (lit "exit ") [Ok (lit "exit")])
    as (_ & Hpadded).
  - vm_compute. reflexivity.
  - right. exists 32%N. split; [|split; [reflexivity | reflexivity]].
    apply list_elem_of_In. vm_compute. tauto.
  - destruct (Hpadded _ _ (surjective_pairing _)) as (_ & Hq').
    etransitivity; [exact Hq'|]. vm_compute. reflexivity.
Defined.

(* ===================================================================== *)
(** * Where the code departs from the specification                       *)
(* ===================================================================== *)


(** C3 as stated does not hold. A fingerprint record that exists and cannot
    be read raises [PermissionError]; the decision does not return, and the
    program ends with the exception before the session starts. *)
Lemma unreadable_sidecar_is_fatal :
  sidecar (storage Demo.unreadable_sidecar) = Raise Demo.permission_denied /\
  documents_hash (data Demo.unreadable_sidecar) = Ok Demo.corpus_fingerprint /\
  Demo.check Demo.unreadable_sidecar
  = (Demo.unreadable_sidecar, Raise Demo.permission_denied) /\
  snd (Demo.build Demo.unreadable_sidecar) = Raise Demo.permission_denied /\
  snd (Demo.run_main 1 Demo.unreadable_sidecar) = Terminated Demo.permission_denied.
Proof. vm_compute. by repeat split. Qed.

(** C5 as stated does not hold. On a first start there is no storage
    directory: the staleness decision computes no fingerprint, and the
    rebuild writes one all the same, computed after the index was persisted. *)
Lemma fingerprint_not_from_decision :
  storage Demo.first_start = None /\
  Demo.check Demo.first_start = (Demo.first_start, Ok (true, None)) /\
  snd (Demo.build Demo.first_start) = Ok Demo.first_index /\
  sidecar (storage (fst (Demo.build Demo.first_start))) = Ok Demo.corpus_fingerprint /\
  observed (fst (Demo.build Demo.first_start))
  = [Some (MkStorage (Raise no_such_hash_file) None);
     Some (MkStorage (Raise no_such_hash_file) (Some Demo.first_index));
     Some (MkStorage (Ok []) (Some Demo.first_index));
     Some (MkStorage (Ok Demo.corpus_fingerprint) (Some Demo.first_index))].
Proof. vm_compute. by repeat split. Qed.

(** C10 as stated does not hold. [KeyboardInterrupt] raised by the prompt
    is not an instance of [Exception]: the handler does not catch it and the
    loop is left without any sentinel having been read. *)
Lemma interrupt_leaves_loop :
  stdin Demo.interrupted = [Raise Demo.keyboard_interrupt] /\
  isinstance Demo.keyboard_interrupt Exception = false /\
  snd (Demo.run_body Demo.rag Demo.interrupted) = Raise Demo.keyboard_interrupt /\
  snd (Demo.run_session 1 Demo.rag Demo.interrupted) = Terminated Demo.keyboard_interrupt /\
  stdout (fst (Demo.run_session 1 Demo.rag Demo.interrupted)) = [OutPrompt].
Proof. vm_compute. by repeat split. Qed.
